(** * auto-react-theme: time-boundary scheduling, storage shim,
    configuration fallback and the provider

  A shallow embedding of the time utilities ([timeUtils.ts]), the storage
  utility ([storage.ts]), the defaults ([constants.ts]) and the provider
  component ([AutoThemeProvider.tsx]: its configuration prologue, its
  handlers and its effects), followed by the properties stated about
  them in the specification and by further properties of the code.

  Conventions.
  - A JavaScript string is the list of its UTF-16 code units ([N]).
  - A JavaScript number is a [Z]: every number the code computes is an
    integer far below 2^53, so no rounding occurs.  The one place where a
    number may be large is the result of [parseInt] on a long digit run;
    rounding to the nearest double is monotone and fixes 0, 23 and 59, so
    every comparison the code makes has the same outcome on the exact
    integer.
    The same exact integer stands in the two range messages, where a
    numeral beyond 2^53 is printed by the code as the double it was
    rounded to.
  - [NaN] is [None]; code that can throw returns a [Completion]. *)

From Stdlib Require Import ZArith NArith Lia Ascii String.
From stdpp Require Import base list gmap.

(** ** JavaScript strings *)

Module JsString.

Definition jsstring : Type := list N.

(** An ASCII literal as a list of code units. *)
Definition js (s : string) : jsstring :=
  map N_of_ascii (list_ascii_of_string s).

Local Open Scope N_scope.

(** ECMAScript [WhiteSpace] and [LineTerminator] code units: what
    [String.prototype.trim] strips and what [parseInt] skips. *)
Definition isWhiteSpace (c : N) : bool :=
  ((9 <=? c) && (c <=? 13))
  || (c =? 32) || (c =? 160) || (c =? 5760)
  || ((8192 <=? c) && (c <=? 8202))
  || (c =? 8232) || (c =? 8233) || (c =? 8239) || (c =? 8287)
  || (c =? 12288) || (c =? 65279).

Definition isDigit (c : N) : bool := (48 <=? c) && (c <=? 57).

Definition colon : N := 58.
Definition plus_sign : N := 43.
Definition minus_sign : N := 45.

Fixpoint dropWhile (p : N -> bool) (s : jsstring) : jsstring :=
  match s with
  | [] => []
  | c :: r => if p c then dropWhile p r else s
  end.

Fixpoint takeWhile (p : N -> bool) (s : jsstring) : jsstring :=
  match s with
  | [] => []
  | c :: r => if p c then c :: takeWhile p r else []
  end.

Definition trimStart (s : jsstring) : jsstring := dropWhile isWhiteSpace s.

Definition trimEnd (s : jsstring) : jsstring :=
  rev (dropWhile isWhiteSpace (rev s)).

(** [s.trim()] *)
Definition trim (s : jsstring) : jsstring := trimEnd (trimStart s).

(** [s.split(sep)] for a one-unit separator: the pieces between the
    occurrences of [sep], one more than there are occurrences. *)
Fixpoint splitOn (sep : N) (s : jsstring) : list jsstring :=
  match s with
  | [] => [[]]
  | c :: r =>
      if c =? sep then [] :: splitOn sep r
      else match splitOn sep r with
           | p :: ps => (c :: p) :: ps
           | [] => [[c]]
           end
  end.

Local Open Scope Z_scope.

Definition digitVal (c : N) : Z := Z.of_N c - 48.

(** The mathematical value of a run of decimal digits. *)
Definition digitsValue (ds : jsstring) : Z :=
  fold_left (fun acc c => acc * 10 + digitVal c) ds 0.

(** [parseInt(s, 10)]: skip leading white space, take an optional sign,
    then the longest run of decimal digits; [NaN] when that run is
    empty.  Whatever follows the digits is ignored. *)
Definition parseInt10 (s : jsstring) : option Z :=
  let s1 := trimStart s in
  let '(sign, s2) :=
    match s1 with
    | c :: r =>
        if (c =? minus_sign)%N then (-1, r)
        else if (c =? plus_sign)%N then (1, r)
        else (1, s1)
    | [] => (1, s1)
    end in
  match takeWhile isDigit s2 with
  | [] => None
  | ds => Some (sign * digitsValue ds)
  end.

End JsString.

(** ** Exceptions and completions *)

Module Js.

(** The messages of the four [throw new Error(...)] sites of
    [timeToMinutes], each with the value its template interpolates: the
    two format messages quote the argument as it was passed (not
    trimmed), the two range messages quote the number [parseInt]
    returned. *)
Inductive ErrorMessage : Type :=
| InvalidTimeFormat (time : JsString.jsstring)
    (* `Invalid time format: "${time}". Expected HH:MM format.` *)
| InvalidTimeValues (time : JsString.jsstring)
    (* `Invalid time values: "${time}". Hours and minutes must be numbers.` *)
| InvalidHourValue (hours : Z)
    (* `Invalid hour value: "${hours}". Hours must be between 0 and 23.` *)
| InvalidMinuteValue (minutes : Z).
    (* `Invalid minute value: "${minutes}". Minutes must be between 0 and 59.` *)

Inductive Exn : Type :=
| Error (msg : ErrorMessage)
| TypeError
| ReferenceError
| DOMException (name : string).

Inductive Completion (A : Type) : Type :=
| Normal (a : A)
| Throw (e : Exn).
Arguments Normal {A} a.
Arguments Throw {A} e.

(** A value that is either a string or [undefined]. *)
Inductive JsVal : Type :=
| JsUndefined
| JsStr (s : JsString.jsstring).

End Js.

(** ** src/timeUtils.ts *)

Module TimeUtils.
Import JsString Js.
Local Open Scope Z_scope.

Definition bindC {A B} (k : A -> Completion B) (c : Completion A)
  : Completion B :=
  match c with
  | Normal a => k a
  | Throw e => Throw e
  end.

#[global] Instance completion_ret : MRet Completion := @Normal.
#[global] Instance completion_bind : MBind Completion := @bindC.

Definition timeToMinutes (time : jsstring) : Completion Z :=
  match splitOn colon (trim time) with
  | [p0; p1] =>
      match parseInt10 p0, parseInt10 p1 with
      | Some hours, Some minutes =>
          if (hours <? 0) || (hours >? 23)
          then Throw (Error (InvalidHourValue hours))
          else if (minutes <? 0) || (minutes >? 59)
               then Throw (Error (InvalidMinuteValue minutes))
               else Normal (hours * 60 + minutes)
      | _, _ => Throw (Error (InvalidTimeValues time))
      end
  | _ => Throw (Error (InvalidTimeFormat time))
  end.

(** The local wall clock as [new Date()] shows it. *)
Record Date : Type := { getHours : Z; getMinutes : Z }.

Definition getCurrentMinutes (now : Date) : Z :=
  getHours now * 60 + getMinutes now.

(** The clock reading whose minute of the day is [m]. *)
Definition clockAt (m : Z) : Date :=
  {| getHours := m / 60; getMinutes := m mod 60 |}.

Definition isLightTime (now : Date) (lightStart darkStart : jsstring)
  : Completion bool :=
  let currentMinutes := getCurrentMinutes now in
  lightStartMinutes ← timeToMinutes lightStart;
  darkStartMinutes ← timeToMinutes darkStart;
  if lightStartMinutes <? darkStartMinutes
  then Normal ((currentMinutes >=? lightStartMinutes)
               && (currentMinutes <? darkStartMinutes))
  else Normal ((currentMinutes >=? lightStartMinutes)
               || (currentMinutes <? darkStartMinutes)).

Inductive Theme : Type := light | dark.

Definition getThemeFromTime (now : Date) (lightStart darkStart : jsstring)
  : Completion Theme :=
  b ← isLightTime now lightStart darkStart;
  Normal (if (b : bool) then light else dark).

Definition getNextBoundary (now : Date) (lightStart darkStart : jsstring)
  : Completion Z :=
  let currentMinutes := getCurrentMinutes now in
  lightStartMinutes ← timeToMinutes lightStart;
  darkStartMinutes ← timeToMinutes darkStart;
  if lightStartMinutes <? darkStartMinutes then
    if currentMinutes <? lightStartMinutes then Normal lightStartMinutes
    else if currentMinutes <? darkStartMinutes then Normal darkStartMinutes
    else Normal (lightStartMinutes + 1440)
  else
    if (currentMinutes >=? lightStartMinutes)
       || (currentMinutes <? darkStartMinutes)
    then Normal darkStartMinutes
    else Normal lightStartMinutes.

(** One call reads the clock twice: [now] is what its own
    [getCurrentMinutes()] sees, [now'] what the later one inside
    [getNextBoundary] sees. *)
Definition getMsUntilNextBoundary (now now' : Date)
    (lightStart darkStart : jsstring) : Completion Z :=
  let currentMinutes := getCurrentMinutes now in
  nextBoundary ← getNextBoundary now' lightStart darkStart;
  let minutesUntilBoundary := nextBoundary - currentMinutes in
  let adjustedMinutes :=
    if minutesUntilBoundary <? 0 then minutesUntilBoundary + 1440
    else minutesUntilBoundary in
  Normal (adjustedMinutes * 60 * 1000).

(** [time.trim()] on a value that is not a string: the TypeScript
    signature says [string], [Partial<ThemeConfig>] lets [undefined]
    through at run time. *)
Definition timeToMinutesVal (time : JsVal) : Completion Z :=
  match time with
  | JsUndefined => Throw TypeError
  | JsStr s => timeToMinutes s
  end.

Definition isValidTimeConfig (lightStart darkStart : JsVal) : bool :=
  match (_ ← timeToMinutesVal lightStart;
         _ ← timeToMinutesVal darkStart;
         Normal true) with
  | Normal b => b
  | Throw _ => false
  end.

End TimeUtils.

(** ** src/storage.ts *)

Module Storage.
Import JsString Js.

(** The Web Storage interface as the code uses it.  Every method may
    complete normally or throw (a [SecurityError] on access, a
    [QuotaExceededError] on write, a [TypeError] when [localStorage] is
    missing), and may change the store either way. *)
Class WebStorage (S : Type) : Type := {
  getItem : jsstring -> S -> Completion (option jsstring) * S;
  setItem : jsstring -> jsstring -> S -> Completion unit * S;
  removeItem : jsstring -> S -> Completion unit * S
}.

(** The host: [window] is absent under server-side rendering. *)
Record Host (S : Type) : Type := { window : option S }.
Arguments window {S} h.

(** Computations over the host that may throw; the host keeps the
    changes made before a throw. *)
Definition JsM (S A : Type) : Type := Host S -> Completion A * Host S.

Definition retM {S A} (a : A) : JsM S A := fun h => (Normal a, h).

Definition bindM {S A B} (c : JsM S A) (k : A -> JsM S B) : JsM S B :=
  fun h =>
    match c h with
    | (Normal a, h') => k a h'
    | (Throw e, h') => (Throw e, h')
    end.

(** [try { body } catch { handler }] *)
Definition tryCatch {S A} (body : JsM S A) (handler : Exn -> JsM S A)
  : JsM S A :=
  fun h =>
    match body h with
    | (Normal a, h') => (Normal a, h')
    | (Throw e, h') => handler e h'
    end.

Notation "'let!' x ':=' c 'in' k" := (bindM c (fun x => k))
  (at level 10, x name, c at level 100, k at level 200, only parsing).

Definition MODE_AUTO : jsstring := js "auto".
Definition MODE_LIGHT : jsstring := js "light".
Definition MODE_DARK : jsstring := js "dark".

(** [stored === lit] for [stored : string | null]. *)
Definition strictEq (stored : option jsstring) (lit : jsstring) : bool :=
  match stored with
  | Some s => bool_decide (s = lit)
  | None => false
  end.

Section WithStorage.
Context {S : Type} `{WebStorage S}.

(** [typeof window === 'undefined'] *)
Definition windowIsUndefined : JsM S bool :=
  fun h => (Normal (match window h with None => true | Some _ => false end), h).

Definition onLocalStorage {A} (op : S -> Completion A * S) : JsM S A :=
  fun h =>
    match window h with
    | None => (Throw ReferenceError, h)
    | Some s => let '(r, s') := op s in (r, {| window := Some s' |})
    end.

(** [window.localStorage.getItem(k)] and its siblings *)
Definition localStorage_getItem (k : jsstring) : JsM S (option jsstring) :=
  onLocalStorage (getItem k).
Definition localStorage_setItem (k v : jsstring) : JsM S unit :=
  onLocalStorage (setItem k v).
Definition localStorage_removeItem (k : jsstring) : JsM S unit :=
  onLocalStorage (removeItem k).

Definition testKey : jsstring := js "__storage_test__".

Definition isStorageAvailable : JsM S bool :=
  let! undef := windowIsUndefined in
  if (undef : bool) then retM false
  else
    tryCatch
      (let! _ := localStorage_setItem testKey testKey in
       let! _ := localStorage_removeItem testKey in
       retM true)
      (fun _ => retM false).

(** The result is the stored string itself ([return stored]) or
    [null]. *)
Definition getStoredMode (storageKey : jsstring) : JsM S (option jsstring) :=
  let! avail := isStorageAvailable in
  if negb avail then retM None
  else
    tryCatch
      (let! stored := localStorage_getItem storageKey in
       if strictEq stored MODE_AUTO || strictEq stored MODE_LIGHT
          || strictEq stored MODE_DARK
       then retM stored
       else retM None)
      (fun _ => retM None).

Definition storeMode (mode storageKey : jsstring) : JsM S bool :=
  let! avail := isStorageAvailable in
  if negb avail then retM false
  else
    tryCatch
      (let! _ := localStorage_setItem storageKey mode in retM true)
      (fun _ => retM false).

Definition clearStoredMode (storageKey : jsstring) : JsM S bool :=
  let! avail := isStorageAvailable in
  if negb avail then retM false
  else
    tryCatch
      (let! _ := localStorage_removeItem storageKey in retM true)
      (fun _ => retM false).

(** [getStoredMode(storageKey) ?? defaultMode] *)
Definition getStoredModeWithFallback (storageKey defaultMode : jsstring)
  : JsM S jsstring :=
  let! stored := getStoredMode storageKey in
  retM (match stored with Some m => m | None => defaultMode end).

End WithStorage.

(** A browser store to run the code against: a finite map with a
    quota in code units (keys and values together), which can also
    refuse every access. *)
Record BrowserStore : Type := {
  items : gmap jsstring jsstring;
  quota : nat;
  accessDenied : bool
}.

Definition usage (m : gmap jsstring jsstring) : nat :=
  map_fold (fun k v acc => length k + length v + acc)%nat 0%nat m.

#[global] Instance browser_storage : WebStorage BrowserStore := {
  getItem k s :=
    if accessDenied s then (Throw (DOMException "SecurityError"), s)
    else (Normal (items s !! k), s);
  setItem k v s :=
    if accessDenied s then (Throw (DOMException "SecurityError"), s)
    else if (usage (<[k := v]> (items s)) <=? quota s)%nat
         then (Normal (), {| items := <[k := v]> (items s);
                             quota := quota s;
                             accessDenied := accessDenied s |})
         else (Throw (DOMException "QuotaExceededError"), s);
  removeItem k s :=
    if accessDenied s then (Throw (DOMException "SecurityError"), s)
    else (Normal (), {| items := delete k (items s);
                        quota := quota s;
                        accessDenied := accessDenied s |})
}.

Definition browser (entries : list (jsstring * jsstring)) (q : nat)
    (denied : bool) : Host BrowserStore :=
  {| window := Some {| items := list_to_map entries;
                       quota := q; accessDenied := denied |} |}.

Definition serverSide : Host BrowserStore := {| window := None |}.

End Storage.

(** ** src/constants.ts and the configuration prologue of
     src/AutoThemeProvider.tsx *)

Module Provider.
Import JsString Js TimeUtils.

Definition DEFAULT_LIGHT_START : jsstring := js "07:00".
Definition DEFAULT_DARK_START : jsstring := js "22:00".
Definition DEFAULT_STORAGE_KEY : jsstring := js "auto-theme-mode".
Definition DEFAULT_APPLY_TO : jsstring := js "html".
Definition DEFAULT_MODE : jsstring := js "auto".

(** [ThemeConfig] without its callback.  The fields are typed [string]
    in TypeScript; at run time a property of the caller's
    [Partial<ThemeConfig>] may hold [undefined]. *)
Record ThemeConfig : Type := {
  lightStart : JsVal;
  darkStart : JsVal;
  defaultMode : JsVal;
  storageKey : JsVal;
  applyTo : JsVal
}.

(** [Partial<ThemeConfig>]: [None] is a property that is not there. *)
Record PartialThemeConfig : Type := {
  lightStart_opt : option JsVal;
  darkStart_opt : option JsVal;
  defaultMode_opt : option JsVal;
  storageKey_opt : option JsVal;
  applyTo_opt : option JsVal
}.

Definition emptyConfig : PartialThemeConfig :=
  {| lightStart_opt := None; darkStart_opt := None; defaultMode_opt := None;
     storageKey_opt := None; applyTo_opt := None |}.

Definition DEFAULT_CONFIG : ThemeConfig :=
  {| lightStart := JsStr DEFAULT_LIGHT_START;
     darkStart := JsStr DEFAULT_DARK_START;
     defaultMode := JsStr DEFAULT_MODE;
     storageKey := JsStr DEFAULT_STORAGE_KEY;
     applyTo := JsStr DEFAULT_APPLY_TO |}.

(** [{ ...base, ...config }]: every property present in [config]
    wins, also one whose value is [undefined]. *)
Definition spread (base : ThemeConfig) (config : PartialThemeConfig)
  : ThemeConfig :=
  {| lightStart := default (lightStart base) (lightStart_opt config);
     darkStart := default (darkStart base) (darkStart_opt config);
     defaultMode := default (defaultMode base) (defaultMode_opt config);
     storageKey := default (storageKey base) (storageKey_opt config);
     applyTo := default (applyTo base) (applyTo_opt config) |}.

(** Lines 86-100 of [AutoThemeProvider]: the configuration every later
    use reads.  The [console.warn] of the fallback branch is not
    modelled. *)
Definition mergedConfig (config : option PartialThemeConfig) : ThemeConfig :=
  let config := default emptyConfig config in
  let merged := spread DEFAULT_CONFIG config in
  if negb (isValidTimeConfig (lightStart merged) (darkStart merged))
  then {| lightStart := lightStart DEFAULT_CONFIG;
          darkStart := darkStart DEFAULT_CONFIG;
          defaultMode := defaultMode merged;
          storageKey := storageKey merged;
          applyTo := applyTo merged |}
  else merged.

(** Two caller configurations used as examples below. *)
Definition badHourConfig : PartialThemeConfig :=
  {| lightStart_opt := Some (JsStr (js "25:00"));
     darkStart_opt := Some (JsStr (js "21:30"));
     defaultMode_opt := None; storageKey_opt := None; applyTo_opt := None |}.

Definition undefinedDarkConfig : PartialThemeConfig :=
  {| lightStart_opt := Some (JsStr (js "06:00"));
     darkStart_opt := Some JsUndefined;
     defaultMode_opt := None; storageKey_opt := None; applyTo_opt := None |}.

End Provider.

(** ** The Web Storage contract *)

Module StorageContract.
Import JsString Js Storage.

(** What the Web Storage standard promises of a call that completes
    normally: the store is a finite map from keys to values ([view]),
    [getItem] reads it, [setItem] and [removeItem] update it.  Nothing is
    asked of a call that throws. *)
Record Contract {S : Type} `{WebStorage S}
    (view : S -> gmap jsstring jsstring) : Prop := {
  getItem_returns : forall k s r s',
    getItem k s = (Normal r, s') -> r = view s !! k /\ view s' = view s;
  setItem_returns : forall k v s u s',
    setItem k v s = (Normal u, s') -> view s' = <[k := v]> (view s);
  removeItem_returns : forall k s u s',
    removeItem k s = (Normal u, s') -> view s' = delete k (view s)
}.

(** A store that a call which throws leaves as it was. *)
Record KeepsOnThrow {S : Type} `{WebStorage S}
    (view : S -> gmap jsstring jsstring) : Prop := {
  getItem_throws : forall k s e s',
    getItem k s = (Throw e, s') -> view s' = view s;
  setItem_throws : forall k v s e s',
    setItem k v s = (Throw e, s') -> view s' = view s;
  removeItem_throws : forall k s e s',
    removeItem k s = (Throw e, s') -> view s' = view s
}.

(** The entries a host holds; none without a [window]. *)
Definition contents {S : Type} (view : S -> gmap jsstring jsstring)
    (h : Host S) : gmap jsstring jsstring :=
  match window h with
  | Some s => view s
  | None => ∅
  end.

End StorageContract.

(** ** src/AutoThemeProvider.tsx: the provider at run time

    The component is read as a transition system on what it touches.
    A handler is a closure of the render that created it and sees the
    [state] of that render, while a state updater receives the state
    that is current when it runs.  Renders are steps of their own, so a
    handler can run between a call of [setState] and the render it
    causes.  Three things are assumed of React and of the caller: a
    render is followed by its effects before anything else happens, a
    state updater runs once and when its handler runs, and
    [onThemeChange], when there is one, returns. *)

Module Runtime.
Import JsString Js TimeUtils Storage Provider.
Local Open Scope Z_scope.

(** [v === lit] for a value that is a string or [undefined]. *)
Definition valEq (v : JsVal) (lit : jsstring) : bool :=
  match v with
  | JsStr s => bool_decide (s = lit)
  | JsUndefined => false
  end.

(** The conversion of an argument to a [DOMString]. *)
Definition toDOMString (v : JsVal) : jsstring :=
  match v with
  | JsStr s => s
  | JsUndefined => js "undefined"
  end.

(** [getThemeFromTime] and [getMsUntilNextBoundary] called on run-time
    values: [lightStart] is parsed first, and parsing a value that is not
    a string is a [TypeError]. *)
Definition getThemeFromTimeVal (now : Date) (lightStart darkStart : JsVal)
  : Completion Theme :=
  match lightStart, darkStart with
  | JsStr ls, JsStr ds => getThemeFromTime now ls ds
  | JsStr ls, JsUndefined => _ ← timeToMinutes ls; Throw TypeError
  | JsUndefined, _ => Throw TypeError
  end.

Definition getMsUntilNextBoundaryVal (now now' : Date)
    (lightStart darkStart : JsVal) : Completion Z :=
  match lightStart, darkStart with
  | JsStr ls, JsStr ds => getMsUntilNextBoundary now now' ls ds
  | JsStr ls, JsUndefined => _ ← timeToMinutes ls; Throw TypeError
  | JsUndefined, _ => Throw TypeError
  end.

(** The readings of the clock that one step makes, in the order the code
    asks for them: [clock 0] is what its first [new Date()] shows. *)
Definition Clock : Type := nat -> Date.

(** The readings that follow the first [n]. *)
Definition later (n : nat) (clock : Clock) : Clock :=
  fun i => clock (n + i)%nat.

(** A clock that shows the same time at every reading. *)
Definition stopped (now : Date) : Clock := fun _ => now.

(** *** The document *)

Record Element : Type := { attributes : gmap jsstring jsstring }.

(** [documentElement] and [body] may be [null]. *)
Record Document : Type := {
  documentElement : option Element;
  body : option Element
}.

Definition DATA_THEME : jsstring := js "data-theme".

Definition themeName (t : Theme) : jsstring :=
  match t with
  | light => js "light"
  | dark => js "dark"
  end.

Definition setAttribute (name value : jsstring) (e : Element) : Element :=
  {| attributes := <[name := value]> (attributes e) |}.

(** [document] is [None] where [typeof document === 'undefined']. *)
Definition applyThemeToDom (theme : Theme) (applyTo : JsVal)
    (document : option Document) : option Document :=
  match document with
  | None => None
  | Some doc =>
      if valEq applyTo (js "html") then
        match documentElement doc with
        | Some target =>
            Some {| documentElement :=
                      Some (setAttribute DATA_THEME (themeName theme) target);
                    body := body doc |}
        | None => Some doc
        end
      else
        match body doc with
        | Some target =>
            Some {| documentElement := documentElement doc;
                    body :=
                      Some (setAttribute DATA_THEME (themeName theme) target) |}
        | None => Some doc
        end
  end.

(** The element [applyTo] designates and the theme written on it. *)
Definition target (applyTo : JsVal) (document : option Document)
  : option Element :=
  match document with
  | None => None
  | Some doc =>
      if valEq applyTo (js "html") then documentElement doc else body doc
  end.

Definition shownTheme (applyTo : JsVal) (document : option Document)
  : option jsstring :=
  match target applyTo document with
  | Some el => attributes el !! DATA_THEME
  | None => None
  end.

(** *** State *)

Definition calculateTheme (mode : JsVal) (config : ThemeConfig) (now : Date)
  : Completion Theme :=
  if valEq mode (js "light") then Normal light
  else if valEq mode (js "dark") then Normal dark
  else getThemeFromTimeVal now (lightStart config) (darkStart config).

(** [ThemeState]; the mode is whatever the store or the configuration
    gave. *)
Record ThemeState : Type := { mode : JsVal; theme : Theme }.

Definition theme_eqb (a b : Theme) : bool :=
  match a, b with
  | light, light | dark, dark => true
  | _, _ => false
  end.

Definition flipTheme (t : Theme) : Theme :=
  match t with light => dark | dark => light end.

Section WithStorage.
Context {S : Type} `{WebStorage S}.

(** What the provider acts on: the host store, the document, the React
    state ([w_state], what a state updater receives and the next render
    will see), the [state] of the last render ([w_seen], what the
    closures of that render see), the calls made to [onThemeChange] (when
    the configuration has one), the delay of the pending timeout, if any,
    and whether a [visibilitychange] listener is registered. *)
Record World : Type := {
  w_host : Host S;
  w_document : option Document;
  w_state : ThemeState;
  w_seen : ThemeState;
  w_notified : list (Theme * JsVal);
  w_timer : option Z;
  w_listening : bool
}.

Definition withTimer (d : option Z) (w : World) : World :=
  {| w_host := w_host w; w_document := w_document w; w_state := w_state w;
     w_seen := w_seen w; w_notified := w_notified w; w_timer := d;
     w_listening := w_listening w |}.

Definition withListener (b : bool) (w : World) : World :=
  {| w_host := w_host w; w_document := w_document w; w_state := w_state w;
     w_seen := w_seen w; w_notified := w_notified w; w_timer := w_timer w;
     w_listening := b |}.

Definition withSeen (st : ThemeState) (w : World) : World :=
  {| w_host := w_host w; w_document := w_document w; w_state := w_state w;
     w_seen := st; w_notified := w_notified w; w_timer := w_timer w;
     w_listening := w_listening w |}.

(** [getStoredModeWithFallback(storageKey, defaultMode)] on the values the
    configuration holds. *)
Definition storedModeOrDefault (config : ThemeConfig)
  : JsM S JsVal :=
  bindM (getStoredMode (toDOMString (storageKey config)))
    (fun stored =>
       retM (match stored with
             | Some m => JsStr m
             | None => defaultMode config
             end)).

(** The initializer of [useState] (lines 103-113). *)
Definition initialState (config : ThemeConfig) (now : Date) (h : Host S)
  : Completion ThemeState * Host S :=
  match storedModeOrDefault config h with
  | (Normal storedMode, h') =>
      (theme ← calculateTheme storedMode config now;
       Normal {| mode := storedMode; theme := theme |}, h')
  | (Throw e, h') => (Throw e, h')
  end.

(** [scheduleNextCheck] (lines 157-206), as created by a render whose
    [state.mode] is [modeSeen]: the pending timeout is dropped; in
    automatic mode a new one is set, its delay capped at 24 hours.  [now]
    and [now'] are the two clock readings of [getMsUntilNextBoundary]. *)
Definition scheduleNextCheck (config : ThemeConfig) (now now' : Date)
    (modeSeen : JsVal) (w : World) : Completion World :=
  if negb (valEq modeSeen (js "auto")) then Normal (withTimer None w)
  else
    msUntilBoundary ←
      getMsUntilNextBoundaryVal now now' (lightStart config) (darkStart config);
    Normal (withTimer (Some (Z.min msUntilBoundary (24 * 60 * 60 * 1000))) w).

(** [document.addEventListener] (line 246) and
    [document.removeEventListener] (line 253): neither is guarded, and
    naming [document] where there is none is a [ReferenceError]. *)
Definition addEventListener (w : World) : Completion World :=
  match w_document w with
  | None => Throw ReferenceError
  | Some _ => Normal (withListener true w)
  end.

Definition removeEventListener (w : World) : Completion World :=
  match w_document w with
  | None => Throw ReferenceError
  | Some _ => Normal (withListener false w)
  end.

(** The second and the third effect (lines 241-247 and 258-262), as
    created by the render whose state is [w_seen w].  Both run after
    every render: their dependencies include [scheduleNextCheck], which
    is a new function at every render because [mergedConfig] is a new
    object at every render. *)
Definition runEffects (config : ThemeConfig) (clock : Clock) (w : World)
  : Completion World :=
  let modeSeen := mode (w_seen w) in
  w1 ← scheduleNextCheck config (clock 0%nat) (clock 1%nat) modeSeen w;
  w2 ← addEventListener w1;
  if valEq modeSeen (js "auto")
  then scheduleNextCheck config (clock 2%nat) (clock 3%nat) modeSeen w2
  else Normal w2.

(** The cleanup of the second effect (lines 249-254). *)
Definition cleanup (w : World) : Completion World :=
  removeEventListener (withTimer None w).

(** A render after the first one, with what follows it: the closures
    of the new render see the current state, the cleanup of the previous
    render runs, then the effects of the new one. *)
Definition afterRender (config : ThemeConfig) (clock : Clock) (w : World)
  : Completion World :=
  w1 ← cleanup w;
  runEffects config clock (withSeen (w_state w1) w1).

(** First render and mount in a host where effects run (lines 103-113
    and 236-262).  A server render runs the initializer only. *)
Definition mount (config : ThemeConfig) (clock : Clock) (h : Host S)
    (document : option Document) : Completion World :=
  match initialState config (clock 0%nat) h with
  | (Normal st, h') =>
      runEffects config (later 1 clock)
        {| w_host := h';
           w_document := applyThemeToDom (theme st) (applyTo config) document;
           w_state := st; w_seen := st; w_notified := []; w_timer := None;
           w_listening := false |}
  | (Throw e, _) => Throw e
  end.

(** [updateTheme] (lines 121-132). *)
Definition updateTheme (config : ThemeConfig) (newMode : JsVal)
    (newTheme : Theme) (w : World) : World :=
  {| w_host := w_host w;
     w_document := applyThemeToDom newTheme (applyTo config) (w_document w);
     w_state := {| mode := newMode; theme := newTheme |};
     w_seen := w_seen w;
     w_notified := w_notified w ++ [(newTheme, newMode)];
     w_timer := w_timer w;
     w_listening := w_listening w |}.

(** [setMode] (lines 137-152); what [storeMode] and [clearStoredMode]
    return is not looked at. *)
Definition setMode (config : ThemeConfig) (now : Date) (newMode : jsstring)
    (w : World) : Completion World :=
  newTheme ← calculateTheme (JsStr newMode) config now;
  let persist :=
    if bool_decide (newMode = js "auto")
    then clearStoredMode (toDOMString (storageKey config))
    else storeMode newMode (toDOMString (storageKey config)) in
  match persist (w_host w) with
  | (Normal _, h') =>
      Normal (updateTheme config (JsStr newMode) newTheme
                {| w_host := h'; w_document := w_document w;
                   w_state := w_state w; w_seen := w_seen w;
                   w_notified := w_notified w; w_timer := w_timer w;
                   w_listening := w_listening w |})
  | (Throw e, _) => Throw e
  end.

(** The part the two state updaters share (lines 189-200 and 220-230),
    applied to the current state: nothing happens unless the theme
    differs. *)
Definition showAutoTheme (config : ThemeConfig) (newTheme : Theme) (w : World)
  : World :=
  if theme_eqb (theme (w_state w)) newTheme then w
  else
    {| w_host := w_host w;
       w_document := applyThemeToDom newTheme (applyTo config) (w_document w);
       w_state := {| mode := mode (w_state w); theme := newTheme |};
       w_seen := w_seen w;
       w_notified := w_notified w ++ [(newTheme, JsStr (js "auto"))];
       w_timer := w_timer w;
       w_listening := w_listening w |}.

(** The timeout callback (lines 177-205).  Its updater does nothing
    unless the current mode is "auto" (lines 185-187).  The
    [scheduleNextCheck] it calls at the end is the one that set the
    timeout, which belongs to a render in automatic mode. *)
Definition onTimeout (config : ThemeConfig) (clock : Clock) (w : World)
  : Completion World :=
  newTheme ←
    getThemeFromTimeVal (clock 0%nat) (lightStart config) (darkStart config);
  let w' := if negb (valEq (mode (w_state w)) (js "auto")) then w
            else showAutoTheme config newTheme w in
  scheduleNextCheck config (clock 1%nat) (clock 2%nat) (JsStr (js "auto")) w'.

(** [handleVisibilityChange] (lines 211-233), as registered by the last
    render: the test of line 212 reads the mode of that render, and the
    updater has no test of the current mode.  [visible] is
    [document.visibilityState === 'visible']. *)
Definition handleVisibilityChange (config : ThemeConfig) (now : Date)
    (visible : bool) (w : World) : Completion World :=
  match w_document w with
  | None => Throw ReferenceError
  | Some _ =>
      if visible && valEq (mode (w_seen w)) (js "auto") then
        newTheme ←
          getThemeFromTimeVal now (lightStart config) (darkStart config);
        Normal (showAutoTheme config newTheme w)
      else Normal w
  end.

(** The context value (lines 265-273) of the last render; [toggleTheme]
    reads the theme of that render. *)
Definition setLight config now w := setMode config now (js "light") w.
Definition setDark config now w := setMode config now (js "dark") w.
Definition setAuto config now w := setMode config now (js "auto") w.
Definition toggleTheme (config : ThemeConfig) (now : Date) (w : World)
  : Completion World :=
  setMode config now
    (if theme_eqb (theme (w_seen w)) light then js "dark" else js "light") w.

(** What can happen to a mounted provider. *)
Inductive Event : Type :=
| SetModeCalled (newMode : jsstring)
| ToggleCalled
| TimeoutFired
| VisibilityChanged (visible : bool)
| Rendered.

(** One event.  A timeout fires only while one is pending, and a
    visibility change is handled only while a listener is registered. *)
Definition step (config : ThemeConfig) (clock : Clock) (ev : Event) (w : World)
  : Completion World :=
  match ev with
  | SetModeCalled newMode => setMode config (clock 0%nat) newMode w
  | ToggleCalled => toggleTheme config (clock 0%nat) w
  | TimeoutFired =>
      match w_timer w with
      | None => Normal w
      | Some _ => onTimeout config clock w
      end
  | VisibilityChanged visible =>
      if w_listening w
      then handleVisibilityChange config (clock 0%nat) visible w
      else Normal w
  | Rendered => afterRender config clock w
  end.

Fixpoint run (config : ThemeConfig) (events : list (Clock * Event)) (w : World)
  : Completion World :=
  match events with
  | [] => Normal w
  | (clock, ev) :: rest => w' ← step config clock ev w; run config rest w'
  end.

(** Whether a call of [setMode] is waiting for its render after [ev],
    given whether one was before. *)
Definition pendingAfter (pending : bool) (ev : Event) : bool :=
  match ev with
  | SetModeCalled _ | ToggleCalled => true
  | Rendered => false
  | TimeoutFired | VisibilityChanged _ => pending
  end.

(** No page becomes visible between a call of [setMode] and the render
    that follows it, that is, while the registered visibility handler is
    still the one of the render before the call. *)
Fixpoint visibilityFresh (pending : bool) (events : list (Clock * Event))
  : bool :=
  match events with
  | [] => true
  | (_, ev) :: rest =>
      match ev with
      | VisibilityChanged visible => negb (visible && pending)
      | _ => true
      end
      && visibilityFresh (pendingAfter pending ev) rest
  end.

(** What holds of every world a mounted provider reaches: there is a
    document and a listener on it, the document shows the theme of the
    state, and a timeout is pending exactly when the last render was in
    automatic mode. *)
Definition steady (config : ThemeConfig) (w : World) : Prop :=
  w_document w <> None
  /\ w_listening w = true
  /\ shownTheme (applyTo config) (w_document w)
     = match target (applyTo config) (w_document w) with
       | Some _ => Some (themeName (theme (w_state w)))
       | None => None
       end
  /\ (w_timer w = None <-> valEq (mode (w_seen w)) (js "auto") = false).

(** What holds in addition as long as no stale visibility handler has
    run: unless a [setMode] is waiting for its render the last render saw
    the current mode, a manual mode fixes the theme, and the last call of
    [onThemeChange] described the state. *)
Definition settled (pending : bool) (w : World) : Prop :=
  (pending = false -> mode (w_seen w) = mode (w_state w))
  /\ ((mode (w_state w) = JsStr (js "light") -> theme (w_state w) = light)
      /\ (mode (w_state w) = JsStr (js "dark") -> theme (w_state w) = dark))
  /\ (last (w_notified w) = None
      \/ last (w_notified w) = Some (theme (w_state w), mode (w_state w))).

End WithStorage.

Arguments World S : clear implicits.

(** A document with both elements and no attribute. *)
Definition sampleDocument : Document :=
  {| documentElement := Some {| attributes := ∅ |};
     body := Some {| attributes := ∅ |} |}.

(** A mounted world used as an example below: automatic mode, light
    theme, an empty browser store. *)
Definition sampleWorld : World BrowserStore :=
  {| w_host := browser [] 100 false;
     w_document := applyThemeToDom light (JsStr (js "html")) (Some sampleDocument);
     w_state := {| mode := JsStr (js "auto"); theme := light |};
     w_seen := {| mode := JsStr (js "auto"); theme := light |};
     w_notified := []; w_timer := Some 60000; w_listening := true |}.

Definition resultOr {A : Type} (d : A) (c : Completion A) : A :=
  match c with
  | Normal a => a
  | Throw _ => d
  end.

(** The same world after [setDark] at 08:20, after [setAuto] on top of
    that, and a provider mounted on the store this leaves at 10:00. *)
Definition sampleDarkWorld : World BrowserStore :=
  resultOr sampleWorld
    (setMode (mergedConfig None) (clockAt 500) (js "dark") sampleWorld).

Definition sampleAutoWorld : World BrowserStore :=
  resultOr sampleWorld
    (setMode (mergedConfig None) (clockAt 500) (js "auto") sampleDarkWorld).

Definition sampleRemounted : World BrowserStore :=
  resultOr sampleWorld
    (mount (mergedConfig None) (stopped (clockAt 600))
       (w_host sampleAutoWorld) (Some sampleDocument)).

(** A caller configuration whose two boundaries coincide. *)
Definition equalBoundariesConfig : PartialThemeConfig :=
  {| lightStart_opt := Some (JsStr (js "09:00"));
     darkStart_opt := Some (JsStr (js "09:00"));
     defaultMode_opt := None; storageKey_opt := None; applyTo_opt := None |}.

End Runtime.

(** ** Vocabulary of the specification *)

Module Spec.
Import JsString Js.

(** The specification names two kinds of parse failure; the code throws
    plain [Error]s that differ in their message.  The two format
    messages are read as [InvalidFormat], the two range messages as
    [OutOfRange]. *)
Inductive ErrorKind : Type := InvalidFormat | OutOfRange.

Definition errorKind (e : Exn) : option ErrorKind :=
  match e with
  | Error (InvalidTimeFormat _) | Error (InvalidTimeValues _) =>
      Some InvalidFormat
  | Error (InvalidHourValue _) | Error (InvalidMinuteValue _) =>
      Some OutOfRange
  | _ => None
  end.

(** Number of occurrences of a code unit. *)
Fixpoint countOf (c : N) (s : jsstring) : nat :=
  match s with
  | [] => 0
  | x :: r => if (x =? c)%N then S (countOf c r) else countOf c r
  end.

(** "The field is an integer", read strictly: an optional sign followed
    by decimal digits and nothing else. *)
Definition isIntegerLiteral (f : jsstring) : bool :=
  let body :=
    match f with
    | c :: r => if (c =? minus_sign)%N || (c =? plus_sign)%N then r else f
    | [] => f
    end in
  match body with
  | [] => false
  | _ => forallb isDigit body
  end.

(** What [parseInt] asks of a field: after white space and at most one
    sign it begins with a decimal digit. *)
Definition hasIntegerPrefix (f : jsstring) : Prop :=
  exists ws sg d rest,
    f = ws ++ sg ++ d :: rest
    /\ forallb isWhiteSpace ws = true
    /\ (sg = [] \/ sg = [plus_sign] \/ sg = [minus_sign])
    /\ isDigit d = true.

(** The "HH:MM" rendering of an hour and a minute. *)
Definition twoDigits (n : Z) : jsstring :=
  [Z.to_N (48 + n / 10); Z.to_N (48 + n mod 10)].

Definition formatHHMM (h m : Z) : jsstring :=
  twoDigits h ++ colon :: twoDigits m.

(** A well-formed [Mode]. *)
Definition isMode (m : jsstring) : Prop :=
  m = js "auto" \/ m = js "light" \/ m = js "dark".

End Spec.

Import JsString Js TimeUtils Storage Provider Spec.
Import StorageContract Runtime.

(** * Properties *)

(** ** Code units, trimming and splitting *)

Section StringLemmas.
Local Open Scope N_scope.

Lemma digit_not_space c : isDigit c = true -> isWhiteSpace c = false.
Proof.
  unfold isDigit, isWhiteSpace.
  rewrite andb_true_iff, !N.leb_le.
  intros [Hlo Hhi].
  rewrite !orb_false_iff, !andb_false_iff, !N.eqb_neq, !N.leb_gt.
  repeat split; lia.
Qed.

Lemma digit_not_colon c : isDigit c = true -> (c =? colon) = false.
Proof.
  unfold isDigit, colon.
  rewrite andb_true_iff, !N.leb_le, N.eqb_neq. lia.
Qed.

Lemma digit_not_sign c :
  isDigit c = true -> (c =? minus_sign) = false /\ (c =? plus_sign) = false.
Proof.
  unfold isDigit, minus_sign, plus_sign.
  rewrite andb_true_iff, !N.leb_le, !N.eqb_neq. lia.
Qed.

Lemma space_not_colon c : isWhiteSpace c = true -> (c =? colon) = false.
Proof.
  destruct (N.eqb_spec c colon) as [->|]; [|done].
  vm_compute. discriminate.
Qed.

Lemma dropWhile_app_all p a b :
  forallb p a = true -> dropWhile p (a ++ b) = dropWhile p b.
Proof.
  induction a as [|c a IH]; simpl; [done|].
  rewrite andb_true_iff. intros [-> Ha]. auto.
Qed.

Lemma dropWhile_stop p c r : p c = false -> dropWhile p (c :: r) = c :: r.
Proof. simpl. by intros ->. Qed.

Lemma takeWhile_all p a :
  forallb p a = true -> takeWhile p a = a.
Proof.
  induction a as [|c a IH]; simpl; [done|].
  rewrite andb_true_iff. intros [-> Ha]. by rewrite IH.
Qed.

Lemma takeWhile_dropWhile p s : takeWhile p s ++ dropWhile p s = s.
Proof.
  induction s as [|c s IH]; simpl; [done|].
  destruct (p c); simpl; [by rewrite IH | done].
Qed.

Lemma takeWhile_forallb p s : forallb p (takeWhile p s) = true.
Proof.
  induction s as [|c s IH]; simpl; [done|].
  destruct (p c) eqn:E; simpl; [by rewrite E | done].
Qed.

Lemma forallb_rev' (p : N -> bool) a :
  forallb p a = true -> forallb p (rev a) = true.
Proof.
  rewrite !forallb_forall. intros Ha x Hx. apply Ha. by apply in_rev.
Qed.

Lemma trimStart_core ws c0 x :
  forallb isWhiteSpace ws = true ->
  isWhiteSpace c0 = false ->
  trimStart (ws ++ c0 :: x) = c0 :: x.
Proof.
  intros Hws H0. unfold trimStart.
  rewrite dropWhile_app_all by done. by apply dropWhile_stop.
Qed.

Lemma trimEnd_core y cl ws :
  forallb isWhiteSpace ws = true ->
  isWhiteSpace cl = false ->
  trimEnd (y ++ cl :: ws) = y ++ [cl].
Proof.
  intros Hws Hl. unfold trimEnd.
  replace (y ++ cl :: ws) with ((y ++ [cl]) ++ ws)
    by (by rewrite <- app_assoc).
  rewrite rev_app_distr, dropWhile_app_all by by apply forallb_rev'.
  rewrite rev_app_distr. simpl.
  rewrite Hl. simpl. by rewrite rev_involutive.
Qed.

(** Trimming removes exactly the surrounding white space of a core
    that neither begins nor ends with white space. *)
Lemma trim_core ws1 ws2 c0 mid cl :
  forallb isWhiteSpace ws1 = true ->
  forallb isWhiteSpace ws2 = true ->
  isWhiteSpace c0 = false ->
  isWhiteSpace cl = false ->
  trim (ws1 ++ (c0 :: mid ++ [cl]) ++ ws2) = c0 :: mid ++ [cl].
Proof.
  intros H1 H2 H0 Hl. unfold trim.
  replace (ws1 ++ (c0 :: mid ++ [cl]) ++ ws2)
    with (ws1 ++ c0 :: (mid ++ cl :: ws2))
    by (simpl; by rewrite <- app_assoc).
  rewrite trimStart_core by done.
  change (c0 :: mid ++ cl :: ws2) with ((c0 :: mid) ++ cl :: ws2).
  by rewrite trimEnd_core.
Qed.

Lemma splitOn_none sep b :
  forallb (fun c => negb (c =? sep)) b = true -> splitOn sep b = [b].
Proof.
  induction b as [|c b IH]; simpl; [done|].
  rewrite andb_true_iff, negb_true_iff. intros [-> Hb]. by rewrite IH.
Qed.

Lemma splitOn_first sep a b :
  forallb (fun c => negb (c =? sep)) a = true ->
  splitOn sep (a ++ sep :: b) = a :: splitOn sep b.
Proof.
  induction a as [|c a IH]; simpl.
  - intros _. by rewrite N.eqb_refl.
  - rewrite andb_true_iff, negb_true_iff. intros [-> Ha]. by rewrite IH.
Qed.

Lemma splitOn_length sep s : length (splitOn sep s) = S (countOf sep s).
Proof.
  induction s as [|c s IH]; simpl; [done|].
  destruct (c =? sep); simpl; [by rewrite IH|].
  destruct (splitOn sep s); simpl in *; [discriminate | done].
Qed.

Lemma countOf_app c a b : countOf c (a ++ b) = (countOf c a + countOf c b)%nat.
Proof.
  induction a as [|x a IH]; simpl; [done|].
  destruct (x =? c); simpl; by rewrite IH.
Qed.

Lemma countOf_rev c a : countOf c (rev a) = countOf c a.
Proof.
  induction a as [|x a IH]; simpl; [done|].
  rewrite countOf_app, IH. simpl. destruct (x =? c); lia.
Qed.

Lemma countOf_dropWhile_space s :
  countOf colon (dropWhile isWhiteSpace s) = countOf colon s.
Proof.
  induction s as [|x s IH]; simpl; [done|].
  destruct (isWhiteSpace x) eqn:E; [|done].
  by rewrite (space_not_colon _ E).
Qed.

(** Trimming keeps every colon. *)
Lemma countOf_colon_trim s : countOf colon (trim s) = countOf colon s.
Proof.
  unfold trim, trimEnd, trimStart.
  by rewrite countOf_rev, countOf_dropWhile_space, countOf_rev,
    countOf_dropWhile_space.
Qed.

End StringLemmas.

(** ** parseInt *)

Section ParseInt.
Local Open Scope Z_scope.

Lemma digitVal_range c : isDigit c = true -> 0 <= digitVal c <= 9.
Proof.
  unfold isDigit, digitVal. rewrite andb_true_iff, !N.leb_le. lia.
Qed.

Lemma fold_digits_nonneg ds acc :
  forallb isDigit ds = true -> 0 <= acc ->
  0 <= fold_left (fun a c => a * 10 + digitVal c) ds acc.
Proof.
  revert acc. induction ds as [|d ds IH]; simpl; intros acc; [done|].
  rewrite andb_true_iff. intros [Hd Hds] Hacc.
  apply IH; [done|]. pose proof (digitVal_range d Hd). lia.
Qed.

Lemma digitsValue_nonneg ds : forallb isDigit ds = true -> 0 <= digitsValue ds.
Proof. intros H. by apply fold_digits_nonneg. Qed.

(** On a run of digits [parseInt] is the decimal value. *)
Lemma parseInt10_digits ds :
  ds <> [] -> forallb isDigit ds = true ->
  parseInt10 ds = Some (digitsValue ds).
Proof.
  destruct ds as [|d ds]; [done|]. intros _ Hall.
  assert (Hd : isDigit d = true) by (simpl in Hall; by destruct (isDigit d)).
  unfold parseInt10, trimStart.
  rewrite dropWhile_stop by by apply digit_not_space.
  destruct (digit_not_sign d Hd) as [-> ->].
  rewrite takeWhile_all by done.
  f_equal. apply Z.mul_1_l.
Qed.

Lemma takeWhile_nonempty p s :
  takeWhile p s <> [] -> exists d rest, s = d :: rest /\ p d = true.
Proof.
  destruct s as [|d rest]; simpl; [done|].
  destruct (p d) eqn:E; [eauto | done].
Qed.

Lemma parseInt10_Some_prefix f v : parseInt10 f = Some v -> hasIntegerPrefix f.
Proof.
  unfold parseInt10, trimStart. intros Hp.
  pose proof (takeWhile_dropWhile isWhiteSpace f) as Hf.
  pose proof (takeWhile_forallb isWhiteSpace f) as Hws.
  destruct (dropWhile isWhiteSpace f) as [|c r] eqn:Hs1.
  { simpl in Hp. discriminate. }
  destruct (N.eqb_spec c minus_sign) as [->|Hm].
  { destruct (takeWhile_nonempty isDigit r) as (d & rest & -> & Hd).
    { intros E. by rewrite E in Hp. }
    exists (takeWhile isWhiteSpace f), [minus_sign], d, rest.
    rewrite <- Hf at 1. naive_solver. }
  destruct (N.eqb_spec c plus_sign) as [->|Hpl].
  { destruct (takeWhile_nonempty isDigit r) as (d & rest & -> & Hd).
    { intros E. by rewrite E in Hp. }
    exists (takeWhile isWhiteSpace f), [plus_sign], d, rest.
    rewrite <- Hf at 1. naive_solver. }
  destruct (takeWhile_nonempty isDigit (c :: r)) as (d & rest & [= <- <-] & Hd).
  { intros E. by rewrite E in Hp. }
  exists (takeWhile isWhiteSpace f), [], c, r.
  rewrite <- Hf at 1. naive_solver.
Qed.

Lemma prefix_parseInt10_Some f : hasIntegerPrefix f -> is_Some (parseInt10 f).
Proof.
  intros (ws & sg & d & rest & -> & Hws & Hsg & Hd).
  unfold parseInt10, trimStart. rewrite dropWhile_app_all by done.
  destruct (digit_not_sign d Hd) as [Hm Hp].
  destruct Hsg as [-> | [-> | ->]]; simpl app.
  - rewrite dropWhile_stop by by apply digit_not_space.
    rewrite Hm, Hp. simpl. rewrite Hd. eauto.
  - rewrite dropWhile_stop by done.
    change ((plus_sign =? minus_sign)%N) with false.
    change ((plus_sign =? plus_sign)%N) with true.
    simpl. rewrite Hd. eauto.
  - rewrite dropWhile_stop by done.
    change ((minus_sign =? minus_sign)%N) with true.
    simpl. rewrite Hd. eauto.
Qed.

(** [parseInt] yields [NaN] exactly on the fields without an integer
    prefix. *)
Lemma parseInt10_None_iff f : parseInt10 f = None <-> ~ hasIntegerPrefix f.
Proof.
  split.
  - intros HN Hpre. destruct (prefix_parseInt10_Some f Hpre) as [v Hv].
    congruence.
  - intros Hno. destruct (parseInt10 f) as [v|] eqn:E; [|done].
    exfalso. eauto using parseInt10_Some_prefix.
Qed.

(** A strict integer literal has an integer prefix: the fields the
    specification calls integers are accepted. *)
Lemma integerLiteral_prefix f : isIntegerLiteral f = true -> hasIntegerPrefix f.
Proof.
  unfold isIntegerLiteral. destruct f as [|c r]; [done|].
  destruct ((c =? minus_sign)%N || (c =? plus_sign)%N) eqn:Hs.
  - destruct r as [|d rest]; [done|]. simpl. rewrite andb_true_iff.
    intros [Hd _]. exists [], [c], d, rest. split_and!; try done.
    apply orb_true_iff in Hs as [?%N.eqb_eq | ?%N.eqb_eq]; naive_solver.
  - simpl. rewrite andb_true_iff. intros [Hd _].
    exists [], [], c, r. naive_solver.
Qed.

End ParseInt.

(** ** timeToMinutes *)

Section TimeToMinutes.
Local Open Scope Z_scope.

(** The shape of every outcome of [timeToMinutes], read off its four
    guards. *)
Lemma timeToMinutes_cases s :
  (length (splitOn colon (trim s)) <> 2%nat
     /\ timeToMinutes s = Throw (Error (InvalidTimeFormat s)))
  \/ exists p0 p1, splitOn colon (trim s) = [p0; p1] /\
      ((( parseInt10 p0 = None \/ parseInt10 p1 = None)
          /\ timeToMinutes s = Throw (Error (InvalidTimeValues s)))
       \/ exists h m, parseInt10 p0 = Some h /\ parseInt10 p1 = Some m /\
            (((h < 0 \/ 23 < h)
                /\ timeToMinutes s = Throw (Error (InvalidHourValue h)))
             \/ (0 <= h <= 23 /\ (m < 0 \/ 59 < m)
                /\ timeToMinutes s = Throw (Error (InvalidMinuteValue m)))
             \/ (0 <= h <= 23 /\ 0 <= m <= 59
                /\ timeToMinutes s = Normal (h * 60 + m)))).
Proof.
  unfold timeToMinutes.
  destruct (splitOn colon (trim s)) as [|p0 [|p1 [|p2 l]]];
    [left; by split | left; by split | | left; by split].
  right. exists p0, p1. split; [done|].
  destruct (parseInt10 p0) as [h|]; [|left; auto].
  destruct (parseInt10 p1) as [m|]; [|left; auto].
  right. exists h, m. split_and!; [done..|].
  rewrite !Z.gtb_ltb.
  destruct (Z.ltb_spec h 0); [left; simpl; split; [lia|done]|].
  destruct (Z.ltb_spec 23 h); [left; simpl; split; [lia|done]|].
  simpl. right.
  destruct (Z.ltb_spec m 0); [left; simpl; split_and!; [lia..|done]|].
  destruct (Z.ltb_spec 59 m); [left; simpl; split_and!; [lia..|done]|].
  simpl. right. split_and!; [lia..|done].
Qed.

(** A successful parse is a minute of the day. *)
Lemma timeToMinutes_range s v : timeToMinutes s = Normal v -> 0 <= v < 1440.
Proof.
  intros Hv.
  destruct (timeToMinutes_cases s)
    as [[_ E] | (p0 & p1 & _ & [[_ E] | (h & m & _ & _ &
          [[_ E] | [(_ & _ & E) | (Hh & Hm & E)]])])];
    rewrite E in Hv; try discriminate.
  injection Hv as <-. lia.
Qed.

Lemma digits_no_colon ds :
  forallb isDigit ds = true ->
  forallb (fun c => negb (c =? colon)%N) ds = true.
Proof.
  induction ds as [|d ds IH]; simpl; [done|].
  rewrite !andb_true_iff. intros [Hd Hds].
  by rewrite (digit_not_colon d Hd), IH.
Qed.

Lemma nonempty_last (l : jsstring) :
  l <> [] -> exists l' x, l = l' ++ [x].
Proof.
  intros Hl. destruct (exists_last Hl) as (l' & x & ->). eauto.
Qed.

(** The fields of a trimmed "digits:digits" string. *)
Lemma fields_of_valid ws1 ws2 hh mm :
  forallb isWhiteSpace ws1 = true -> forallb isWhiteSpace ws2 = true ->
  hh <> [] -> forallb isDigit hh = true ->
  mm <> [] -> forallb isDigit mm = true ->
  splitOn colon (trim (ws1 ++ hh ++ colon :: mm ++ ws2)) = [hh; mm].
Proof.
  intros H1 H2 Hh Hhd Hm Hmd.
  destruct hh as [|c0 hh']; [done|].
  destruct (nonempty_last mm Hm) as (mm' & cl & ->).
  assert (Hc0 : isDigit c0 = true) by (simpl in Hhd; by destruct (isDigit c0)).
  assert (Hcl : isDigit cl = true).
  { rewrite forallb_app in Hmd. simpl in Hmd.
    destruct (isDigit cl); [done|]. by rewrite !andb_false_r in Hmd. }
  replace (ws1 ++ (c0 :: hh') ++ colon :: (mm' ++ [cl]) ++ ws2)
    with (ws1 ++ (c0 :: (hh' ++ colon :: mm') ++ [cl]) ++ ws2)
    by (simpl; by rewrite <- !app_assoc).
  rewrite trim_core by auto using digit_not_space.
  replace (c0 :: (hh' ++ colon :: mm') ++ [cl])
    with ((c0 :: hh') ++ colon :: (mm' ++ [cl]))
    by (simpl; by rewrite <- !app_assoc).
  rewrite splitOn_first by by apply digits_no_colon.
  by rewrite splitOn_none by by apply digits_no_colon.
Qed.

(** White space, a numeral, a colon, a numeral, white space: the parse
    succeeds when the numerals are in range. *)
Lemma timeToMinutes_numerals (ws1 ws2 hh mm : jsstring) :
  forallb isWhiteSpace ws1 = true -> forallb isWhiteSpace ws2 = true ->
  hh <> [] -> forallb isDigit hh = true -> digitsValue hh <= 23 ->
  mm <> [] -> forallb isDigit mm = true -> digitsValue mm <= 59 ->
  timeToMinutes (ws1 ++ hh ++ colon :: mm ++ ws2)
    = Normal (digitsValue hh * 60 + digitsValue mm).
Proof.
  intros H1 H2 Hh Hhd Hhr Hm Hmd Hmr.
  pose proof (digitsValue_nonneg hh Hhd).
  pose proof (digitsValue_nonneg mm Hmd).
  unfold timeToMinutes.
  rewrite fields_of_valid by done.
  rewrite !parseInt10_digits by done.
  rewrite !Z.gtb_ltb.
  destruct (Z.ltb_spec (digitsValue hh) 0); [lia|].
  destruct (Z.ltb_spec 23 (digitsValue hh)); [lia|].
  destruct (Z.ltb_spec (digitsValue mm) 0); [lia|].
  destruct (Z.ltb_spec 59 (digitsValue mm)); [lia|].
  done.
Qed.

Lemma twoDigits_value n :
  0 <= n <= 99 ->
  forallb isDigit (twoDigits n) = true /\ digitsValue (twoDigits n) = n.
Proof.
  intros Hn.
  pose proof (Z.mod_pos_bound n 10 ltac:(lia)).
  pose proof (Z.div_mod n 10 ltac:(lia)).
  assert (0 <= n / 10 <= 9) by lia.
  unfold twoDigits, digitsValue, digitVal, isDigit. simpl.
  rewrite !andb_true_iff, !N.leb_le. rewrite !Z2N.id by lia.
  split; [split_and!; lia | lia].
Qed.

(** Every hour and minute, written "HH:MM", parses to its minute of the
    day; so every minute of the day is the value of some boundary
    string. *)
Lemma timeToMinutes_formatHHMM h m :
  0 <= h <= 23 -> 0 <= m <= 59 ->
  timeToMinutes (formatHHMM h m) = Normal (h * 60 + m).
Proof.
  intros Hh Hm.
  destruct (twoDigits_value h ltac:(lia)) as [Hhd Hhv].
  destruct (twoDigits_value m ltac:(lia)) as [Hmd Hmv].
  pose proof (timeToMinutes_numerals [] [] (twoDigits h) (twoDigits m)) as Hp.
  rewrite app_nil_r, Hhv, Hmv in Hp. apply Hp; try done; lia.
Qed.

Lemma every_minute_parses v :
  0 <= v < 1440 -> timeToMinutes (formatHHMM (v / 60) (v mod 60)) = Normal v.
Proof.
  intros Hv.
  pose proof (Z.mod_pos_bound v 60 ltac:(lia)).
  pose proof (Z.div_mod v 60 ltac:(lia)).
  assert (0 <= v / 60 <= 23) by lia.
  rewrite timeToMinutes_formatHHMM by lia. f_equal. lia.
Qed.

End TimeToMinutes.

Section TimeToMinutesClaims.
Local Open Scope Z_scope.

(** C6, as stated, fails: the minutes field "30abc" is not an integer,
    there is exactly one colon, and yet ["07:30abc"] parses to 450
    instead of failing with the format error. *)
Lemma timeToMinutes_accepts_trailing_text :
  countOf colon (js "07:30abc") = 1%nat
  /\ splitOn colon (trim (js "07:30abc")) = [js "07"; js "30abc"]
  /\ isIntegerLiteral (js "30abc") = false
  /\ timeToMinutes (js "07:30abc") = Normal 450.
Proof. by vm_compute. Qed.

(** C6 (amended): [timeToMinutes] fails with a format error exactly
    when the input does not hold exactly one colon or one of its fields
    has no integer prefix (white space, at most one sign, then a digit;
    text after the digits is ignored); it fails with a range error exactly
    when both fields have an integer prefix and the hours prefix is
    outside 0..23 or the minutes prefix outside 0..59; and every outcome
    is a success or one of these two failures. *)
Theorem timeToMinutes_failure_kinds (s : jsstring) :
  ((exists e, timeToMinutes s = Throw e /\ errorKind e = Some InvalidFormat)
     <-> (countOf colon s <> 1%nat
          \/ exists f, In f (splitOn colon (trim s)) /\ ~ hasIntegerPrefix f))
  /\ ((exists e, timeToMinutes s = Throw e /\ errorKind e = Some OutOfRange)
     <-> (exists p0 p1 h m,
            splitOn colon (trim s) = [p0; p1]
            /\ parseInt10 p0 = Some h /\ parseInt10 p1 = Some m
            /\ (h < 0 \/ 23 < h \/ m < 0 \/ 59 < m)))
  /\ ((exists v, timeToMinutes s = Normal v)
      \/ (exists e, timeToMinutes s = Throw e
            /\ (errorKind e = Some InvalidFormat
                \/ errorKind e = Some OutOfRange))).
Proof.
  pose proof (splitOn_length colon (trim s)) as Hlen.
  rewrite countOf_colon_trim in Hlen.
  destruct (timeToMinutes_cases s)
    as [[Hn E] | (p0 & p1 & Hf & [[HN E] | (h & m & Hh & Hm &
          [[Hr E] | [(Hr1 & Hr2 & E) | (Hr1 & Hr2 & E)]])])];
    rewrite E; try rewrite Hf in *; simpl in Hlen.
  - (* not two fields *)
    split_and!.
    + split; [intros _; left; lia | eauto].
    + split; [by intros (e & [= <-] & ?) |].
      intros (q0 & q1 & _ & _ & Hq & _). by rewrite Hq in Hn.
    + right. eauto.
  - (* a field without an integer prefix *)
    split_and!.
    + split; [|eauto]. intros _. right.
      destruct HN as [HN|HN]; apply parseInt10_None_iff in HN;
        [exists p0 | exists p1]; simpl; auto.
    + split; [by intros (e & [= <-] & ?) |].
      intros (q0 & q1 & h & m & [= <- <-] & ? & ? & _).
      destruct HN; congruence.
    + right. eauto.
  - (* hours out of range *)
    split_and!.
    + split; [by intros (e & [= <-] & ?) |].
      intros [Hc | (f & [<- | [<- | []]] & Hno)]; [lia | |];
        apply parseInt10_None_iff in Hno; congruence.
    + split; [|eauto]. intros _. exists p0, p1, h, m. split_and!; auto; lia.
    + right. eauto.
  - (* minutes out of range *)
    split_and!.
    + split; [by intros (e & [= <-] & ?) |].
      intros [Hc | (f & [<- | [<- | []]] & Hno)]; [lia | |];
        apply parseInt10_None_iff in Hno; congruence.
    + split; [|eauto]. intros _. exists p0, p1, h, m. split_and!; auto; lia.
    + right. eauto.
  - (* success *)
    split_and!.
    + split; [by intros (e & [=] & ?) |].
      intros [Hc | (f & [<- | [<- | []]] & Hno)]; [lia | |];
        apply parseInt10_None_iff in Hno; congruence.
    + split; [by intros (e & [=] & ?) |].
      intros (q0 & q1 & h' & m' & [= <- <-] & Hh' & Hm' & Hbad).
      assert (h' = h) by congruence. assert (m' = m) by congruence. lia.
    + left. eauto.
Qed.

(** C7: a string made of white space, a decimal numeral for the hours
    (at most 23), a colon, a decimal numeral for the minutes (at most
    59) and white space parses, and the result is hours * 60 + minutes, a
    minute of the day.  [timeToMinutes] is a function of its argument
    alone: the same string gives the same result on every call, and
    nothing else is read or written. *)
Theorem timeToMinutes_valid (ws1 ws2 hh mm : jsstring) :
  forallb isWhiteSpace ws1 = true -> forallb isWhiteSpace ws2 = true ->
  hh <> [] -> forallb isDigit hh = true -> digitsValue hh <= 23 ->
  mm <> [] -> forallb isDigit mm = true -> digitsValue mm <= 59 ->
  timeToMinutes (ws1 ++ hh ++ colon :: mm ++ ws2)
    = Normal (digitsValue hh * 60 + digitsValue mm)
  /\ 0 <= digitsValue hh * 60 + digitsValue mm < 1440.
Proof.
  intros H1 H2 Hh Hhd Hhr Hm Hmd Hmr.
  pose proof (digitsValue_nonneg hh Hhd).
  pose proof (digitsValue_nonneg mm Hmd).
  split; [by apply timeToMinutes_numerals | lia].
Qed.

Lemma timeToMinutes_valid_witness :
  timeToMinutes (js "  " ++ js "07" ++ colon :: js "05" ++ [9; 10]%N)
    = Normal (digitsValue (js "07") * 60 + digitsValue (js "05"))
  /\ 0 <= digitsValue (js "07") * 60 + digitsValue (js "05") < 1440.
Proof.
  apply (timeToMinutes_valid (js "  ") [9; 10]%N (js "07") (js "05"));
    try reflexivity; try discriminate.
Defined.

End TimeToMinutesClaims.

(** ** The clock *)

Section Clock.
Local Open Scope Z_scope.

Lemma getCurrentMinutes_range now :
  0 <= getHours now <= 23 -> 0 <= getMinutes now <= 59 ->
  0 <= getCurrentMinutes now < 1440.
Proof. unfold getCurrentMinutes. lia. Qed.

Lemma getCurrentMinutes_clockAt m : getCurrentMinutes (clockAt m) = m.
Proof.
  unfold getCurrentMinutes, clockAt. simpl.
  pose proof (Z.div_mod m 60). lia.
Qed.

(** The minute of the day of an instant given in minutes since a
    midnight, for the three shapes a boundary can take. *)
Lemma minute_before_boundary b :
  0 <= b < 1440 ->
  (b - 1) mod 1440 = (if b =? 0 then 1439 else b - 1)
  /\ b mod 1440 = b
  /\ (b + 1440 - 1) mod 1440 = (if b =? 0 then 1439 else b - 1)
  /\ (b + 1440) mod 1440 = b.
Proof.
  intros Hb. destruct (Z.eqb_spec b 0) as [->|Hne].
  - by vm_compute.
  - split_and!.
    + apply Z.mod_small. lia.
    + apply Z.mod_small. lia.
    + replace (b + 1440 - 1) with (b - 1 + 1 * 1440) by lia.
      rewrite Z.mod_add by lia. apply Z.mod_small. lia.
    + replace (b + 1440) with (b + 1 * 1440) by lia.
      rewrite Z.mod_add by lia. apply Z.mod_small. lia.
Qed.

End Clock.

(** ** The boundary scheduler on parsed boundaries *)

Section Scheduler.
Local Open Scope Z_scope.
Variables (lightStart darkStart : jsstring) (L D : Z).
Hypothesis parse_light : timeToMinutes lightStart = Normal L.
Hypothesis parse_dark : timeToMinutes darkStart = Normal D.

Lemma isLightTime_parsed now :
  isLightTime now lightStart darkStart =
    Normal (let C := getCurrentMinutes now in
            if L <? D then (C >=? L) && (C <? D)
            else (C >=? L) || (C <? D)).
Proof using parse_light parse_dark.
  unfold isLightTime. rewrite parse_light, parse_dark. simpl.
  by destruct (L <? D).
Qed.

Lemma getNextBoundary_parsed now :
  getNextBoundary now lightStart darkStart =
    Normal (let C := getCurrentMinutes now in
            if L <? D then
              if C <? L then L else if C <? D then D else L + 1440
            else if (C >=? L) || (C <? D) then D else L).
Proof using parse_light parse_dark.
  unfold getNextBoundary. rewrite parse_light, parse_dark. simpl.
  destruct (L <? D).
  - destruct (_ <? L); [done|]. by destruct (_ <? D).
  - by destruct ((_ >=? L) || (_ <? D)).
Qed.

Lemma getMsUntilNextBoundary_parsed now now' nb :
  getNextBoundary now' lightStart darkStart = Normal nb ->
  getMsUntilNextBoundary now now' lightStart darkStart =
    Normal ((if nb - getCurrentMinutes now <? 0
             then nb - getCurrentMinutes now + 1440
             else nb - getCurrentMinutes now) * 60 * 1000).
Proof. unfold getMsUntilNextBoundary. by intros ->. Qed.

Lemma boundaries_in_day : 0 <= L < 1440 /\ 0 <= D < 1440.
Proof using parse_light parse_dark.
  split; eauto using timeToMinutes_range.
Qed.

End Scheduler.

(** Case analysis on every comparison of the goal, closed by linear
  arithmetic. *)
Ltac compare_cases :=
rewrite ?Z.geb_leb;
repeat match goal with
       | |- context [Z.eqb ?a ?b] => destruct (Z.eqb_spec a b)
       | |- context [Z.ltb ?a ?b] => destruct (Z.ltb_spec a b)
       | |- context [Z.leb ?a ?b] => destruct (Z.leb_spec a b)
       end;
simpl; try done; try lia; try (exfalso; lia).

Section SchedulerClaims.
Local Open Scope Z_scope.

(** C3, as stated, fails: with both boundaries at "09:00", minute 540
    is the minute at which the dark interval starts and the light one
    ends, and it is light: it belongs to the interval it ends. *)
Lemma equal_boundaries_dark_start_is_light :
  timeToMinutes (js "09:00") = Normal 540
  /\ isLightTime (clockAt 540) (js "09:00") (js "09:00") = Normal true.
Proof. by vm_compute. Qed.

(** C3 (amended): with [L] and [D] the parsed boundaries and [C] the
    current minute, [isLightTime] always returns (no error case), and
    what it returns is [C >= L && C < D] when [L < D] and
    [C >= L || C < D] when [L >= D].  The minute [L] is always light.  The
    minute [D] is dark when the two boundaries differ, so that the
    interval is half-open; when they coincide the minute [D] is light,
    like every other minute. *)
Theorem isLightTime_half_open (now : Date) (lightStart darkStart : jsstring)
    (L D : Z) :
  timeToMinutes lightStart = Normal L ->
  timeToMinutes darkStart = Normal D ->
  let C := getCurrentMinutes now in
  (exists b, isLightTime now lightStart darkStart = Normal b
     /\ (L < D -> (b = true <-> C >= L /\ C < D))
     /\ (L >= D -> (b = true <-> C >= L \/ C < D)))
  /\ isLightTime (clockAt L) lightStart darkStart = Normal true
  /\ (L <> D -> isLightTime (clockAt D) lightStart darkStart = Normal false)
  /\ (L = D -> isLightTime (clockAt D) lightStart darkStart = Normal true).
Proof.
  intros HL HD C.
  rewrite !(isLightTime_parsed _ _ _ _ HL HD), !getCurrentMinutes_clockAt.
  cbv zeta. fold C. split_and!.
  - eexists. split; [reflexivity|].
    split; intros Hcmp; compare_cases; split; try done; lia.
  - f_equal. compare_cases.
  - intros Hne. f_equal. compare_cases.
  - intros Heq. f_equal. compare_cases.
Qed.

Lemma isLightTime_half_open_witness :
  (exists b, isLightTime (clockAt 500) (js "07:00") (js "22:00") = Normal b
     /\ (420 < 1320 ->
         (b = true <-> getCurrentMinutes (clockAt 500) >= 420
                       /\ getCurrentMinutes (clockAt 500) < 1320))
     /\ (420 >= 1320 ->
         (b = true <-> getCurrentMinutes (clockAt 500) >= 420
                       \/ getCurrentMinutes (clockAt 500) < 1320)))
  /\ isLightTime (clockAt 420) (js "07:00") (js "22:00") = Normal true
  /\ (420 <> 1320 ->
      isLightTime (clockAt 1320) (js "07:00") (js "22:00") = Normal false)
  /\ (420 = 1320 ->
      isLightTime (clockAt 1320) (js "07:00") (js "22:00") = Normal true).
Proof.
  apply (isLightTime_half_open (clockAt 500) (js "07:00") (js "22:00")
           420 1320); reflexivity.
Defined.

(** C2, as stated, fails: with both boundaries at "09:00" the state at
    10:00 (and at every other minute) is light, not dark. *)
Lemma equal_boundaries_not_dark :
  timeToMinutes (js "09:00") = Normal 540
  /\ isLightTime (clockAt 600) (js "09:00") (js "09:00") = Normal true.
Proof. by vm_compute. Qed.

(** C2 (amended): when [lightStart] and [darkStart] parse to the same
    minute, [isLightTime] returns [true] at every current minute: the
    configuration is always light. *)
Theorem equal_boundaries_always_light (now : Date)
    (lightStart darkStart : jsstring) (L : Z) :
  timeToMinutes lightStart = Normal L ->
  timeToMinutes darkStart = Normal L ->
  isLightTime now lightStart darkStart = Normal true.
Proof.
  intros HL HD. rewrite (isLightTime_parsed _ _ _ _ HL HD).
  cbv zeta. f_equal. compare_cases.
Qed.

Lemma equal_boundaries_always_light_witness :
  isLightTime (clockAt 30) (js "09:00") (js " 9:00") = Normal true.
Proof.
  apply (equal_boundaries_always_light (clockAt 30) (js "09:00")
           (js " 9:00") 540); reflexivity.
Defined.

(** C1, as stated, fails: with both boundaries at "09:00" the next
    boundary is minute 540, and the state is light both at 539 and at
    540. *)
Lemma equal_boundaries_no_state_change :
  getNextBoundary (clockAt 0) (js "09:00") (js "09:00") = Normal 540
  /\ isLightTime (clockAt ((540 - 1) mod 1440)) (js "09:00") (js "09:00")
     = Normal true
  /\ isLightTime (clockAt (540 mod 1440)) (js "09:00") (js "09:00")
     = Normal true.
Proof. by vm_compute. Qed.

(** C1 (amended): when the two boundaries parse to different minutes,
    the state one minute before the instant returned by
    [getNextBoundary] differs from the state at that instant, both taken
    modulo 1440. *)
Theorem next_boundary_is_state_change (now : Date)
    (lightStart darkStart : jsstring) (L D : Z) :
  timeToMinutes lightStart = Normal L ->
  timeToMinutes darkStart = Normal D ->
  L <> D ->
  exists nb before after,
    getNextBoundary now lightStart darkStart = Normal nb
    /\ isLightTime (clockAt ((nb - 1) mod 1440)) lightStart darkStart
       = Normal before
    /\ isLightTime (clockAt (nb mod 1440)) lightStart darkStart
       = Normal after
    /\ before <> after.
Proof.
  intros HL HD Hne.
  destruct (boundaries_in_day _ _ _ _ HL HD) as [HLr HDr].
  pose proof (minute_before_boundary L HLr) as (HL1 & HL2 & HL3 & HL4).
  pose proof (minute_before_boundary D HDr) as (HD1 & HD2 & _ & _).
  rewrite (getNextBoundary_parsed _ _ _ _ HL HD). cbv zeta.
  set (C := getCurrentMinutes now).
  assert (Hat : forall b, (b = L \/ b = D \/ b = L + 1440) ->
    exists before after,
      isLightTime (clockAt ((b - 1) mod 1440)) lightStart darkStart
        = Normal before
      /\ isLightTime (clockAt (b mod 1440)) lightStart darkStart
        = Normal after
      /\ before <> after).
  { intros b Hb.
    rewrite !(isLightTime_parsed _ _ _ _ HL HD), !getCurrentMinutes_clockAt.
    cbv zeta. do 2 eexists. split_and!; [reflexivity..|].
    destruct Hb as [-> | [-> | ->]].
    - rewrite HL1, HL2. compare_cases.
    - rewrite HD1, HD2. compare_cases.
    - rewrite HL3, HL4. compare_cases. }
  set (nb := if L <? D
             then if C <? L then L else if C <? D then D else L + 1440
             else if (C >=? L) || (C <? D) then D else L).
  assert (Hnb : nb = L \/ nb = D \/ nb = L + 1440).
  { unfold nb.
    destruct (L <? D); [destruct (C <? L); [|destruct (C <? D)] |
                        destruct ((C >=? L) || (C <? D))]; auto. }
  destruct (Hat nb Hnb) as (before & after & ? & ? & ?).
  by exists nb, before, after.
Qed.

Lemma next_boundary_is_state_change_witness :
  exists nb before after,
    getNextBoundary (clockAt 500) (js "07:00") (js "22:00") = Normal nb
    /\ isLightTime (clockAt ((nb - 1) mod 1440)) (js "07:00") (js "22:00")
       = Normal before
    /\ isLightTime (clockAt (nb mod 1440)) (js "07:00") (js "22:00")
       = Normal after
    /\ before <> after.
Proof.
  apply (next_boundary_is_state_change (clockAt 500) (js "07:00")
           (js "22:00") 420 1320); [reflexivity | reflexivity | lia].
Defined.

(** The other half of the consistency law: before the returned instant
    nothing changes, the state one minute earlier is the current one. *)
Lemma state_holds_until_next_boundary (now : Date)
    (lightStart darkStart : jsstring) (L D : Z) :
  timeToMinutes lightStart = Normal L ->
  timeToMinutes darkStart = Normal D ->
  L <> D ->
  0 <= getCurrentMinutes now < 1440 ->
  exists nb,
    getNextBoundary now lightStart darkStart = Normal nb
    /\ isLightTime (clockAt ((nb - 1) mod 1440)) lightStart darkStart
       = isLightTime now lightStart darkStart.
Proof.
  intros HL HD Hne HC.
  destruct (boundaries_in_day _ _ _ _ HL HD) as [HLr HDr].
  pose proof (minute_before_boundary L HLr) as (HL1 & _ & HL3 & _).
  pose proof (minute_before_boundary D HDr) as (HD1 & _ & _ & _).
  rewrite (getNextBoundary_parsed _ _ _ _ HL HD).
  eexists. split; [reflexivity|].
  rewrite !(isLightTime_parsed _ _ _ _ HL HD), !getCurrentMinutes_clockAt.
  cbv zeta. set (C := getCurrentMinutes now) in *. f_equal.
  rewrite ?Z.geb_leb.
  destruct (Z.ltb_spec L D).
  - destruct (Z.ltb_spec C L); [rewrite HL1; compare_cases|].
    destruct (Z.ltb_spec C D); [rewrite HD1; compare_cases|].
    rewrite HL3. compare_cases.
  - destruct (Z.leb_spec L C); simpl; [rewrite HD1; compare_cases|].
    destruct (Z.ltb_spec C D); simpl; [rewrite HD1 | rewrite HL1];
      compare_cases.
Qed.

(** C4, as stated, fails: with light from 22:00 and dark from 07:00, at
    23:20 (light, and past [lightStart]) the function returns 420, not
    420 + 1440. *)
Lemma wrapped_light_returns_dark_start_unshifted :
  timeToMinutes (js "22:00") = Normal 1320
  /\ timeToMinutes (js "07:00") = Normal 420
  /\ isLightTime (clockAt 1400) (js "22:00") (js "07:00") = Normal true
  /\ getNextBoundary (clockAt 1400) (js "22:00") (js "07:00") = Normal 420
  /\ 420 <> 420 + 1440.
Proof. by vm_compute. Qed.

(** C4 (amended): in the wrapping case ([L >= D]), when the current
    state is light [getNextBoundary] returns [D], both when [C < D] and
    when [C >= L]; when the current state is dark ([D <= C < L]) it
    returns [L]. *)
Theorem getNextBoundary_wrapping (now : Date)
    (lightStart darkStart : jsstring) (L D : Z) :
  timeToMinutes lightStart = Normal L ->
  timeToMinutes darkStart = Normal D ->
  L >= D ->
  let C := getCurrentMinutes now in
  (C < D \/ C >= L ->
     isLightTime now lightStart darkStart = Normal true
     /\ getNextBoundary now lightStart darkStart = Normal D)
  /\ (D <= C < L ->
     isLightTime now lightStart darkStart = Normal false
     /\ getNextBoundary now lightStart darkStart = Normal L).
Proof.
  intros HL HD Hwrap C.
  rewrite (isLightTime_parsed _ _ _ _ HL HD).
  rewrite (getNextBoundary_parsed _ _ _ _ HL HD).
  cbv zeta. fold C.
  split; intros HC; split; f_equal; compare_cases.
Qed.

Lemma getNextBoundary_wrapping_witness :
  (getCurrentMinutes (clockAt 1400) < 420
   \/ getCurrentMinutes (clockAt 1400) >= 1320 ->
     isLightTime (clockAt 1400) (js "22:00") (js "07:00") = Normal true
     /\ getNextBoundary (clockAt 1400) (js "22:00") (js "07:00")
        = Normal 420)
  /\ (420 <= getCurrentMinutes (clockAt 1400) < 1320 ->
     isLightTime (clockAt 1400) (js "22:00") (js "07:00") = Normal false
     /\ getNextBoundary (clockAt 1400) (js "22:00") (js "07:00")
        = Normal 1320).
Proof.
  apply (getNextBoundary_wrapping (clockAt 1400) (js "22:00") (js "07:00")
           1320 420); [reflexivity | reflexivity | lia].
Defined.

(** C5, as stated, fails: with both boundaries at "09:00", at 09:00
    (both clock readings of the call showing that minute) the delay is
    0 ms, not strictly positive. *)
Lemma equal_boundaries_zero_delay :
  getMsUntilNextBoundary (clockAt 540) (clockAt 540) (js "09:00") (js "09:00")
  = Normal 0.
Proof. by vm_compute. Qed.

(** The two clock readings of a call, on parsed boundaries: [C] is the
    call's own reading and [C'] the one [getNextBoundary] makes. *)
Lemma getMsUntilNextBoundary_two_readings (now now' : Date)
    (lightStart darkStart : jsstring) (L D : Z) :
  timeToMinutes lightStart = Normal L ->
  timeToMinutes darkStart = Normal D ->
  let C := getCurrentMinutes now in
  let C' := getCurrentMinutes now' in
  0 <= C < 1440 -> 0 <= C' < 1440 ->
  exists nb k,
    getNextBoundary now' lightStart darkStart = Normal nb
    /\ getMsUntilNextBoundary now now' lightStart darkStart
       = Normal (k * 60000)
    /\ k = (if nb - C <? 0 then nb - C + 1440 else nb - C)
    /\ 0 <= k <= 2878
    /\ (C' = C \/ C' = (C + 1) mod 1440 -> k <= 1440)
    /\ (C' = C -> k <= 1439 /\ (k = 0 <-> L = D /\ C = L)).
Proof.
  intros HL HD C C' HC HC'.
  destruct (boundaries_in_day _ _ _ _ HL HD) as [HLr HDr].
  pose proof (getNextBoundary_parsed _ _ _ _ HL HD now') as Hnb.
  cbv zeta in Hnb. fold C' in Hnb. rewrite ?Z.geb_leb in Hnb.
  assert (Hroll : C' = (C + 1) mod 1440 -> C' = C + 1 \/ C = 1439 /\ C' = 0).
  { intros ->. destruct (Z.eq_dec C 1439) as [->|Hne]; [by right|left].
    apply Z.mod_small. lia. }
  destruct (Z.ltb_spec L D);
    [ destruct (Z.ltb_spec C' L); [|destruct (Z.ltb_spec C' D)]
    | destruct (Z.leb_spec L C'); [|destruct (Z.ltb_spec C' D)] ];
    simpl in Hnb;
    (match type of Hnb with
     | _ = Normal ?nb =>
         exists nb, (if nb - C <? 0 then nb - C + 1440 else nb - C)
     end;
     split; [exact Hnb|];
     split; [rewrite (getMsUntilNextBoundary_parsed _ _ _ _ _ Hnb); fold C;
             f_equal; lia|];
     split; [reflexivity|];
     split; [compare_cases|];
     split; [intros [Hsame | Hnext%Hroll]; compare_cases
            |intros Hsame; compare_cases]).
Qed.

(** C5 (amended): for parsed boundaries and clock readings within the
    day, [getMsUntilNextBoundary] is the minute delta
    [nextBoundary - currentMinutes], plus 1440 when that delta is
    negative, times 60000, where [currentMinutes] is the call's own
    clock reading and [nextBoundary] is computed from a second, later
    reading.  The result is never negative.  When the second reading
    shows the same minute as the first or the minute after it, the
    result does not exceed 1440 * 60000 ms.  When both readings show the
    same minute, it is 0 if both boundaries and the current minute
    coincide, and strictly positive otherwise. *)
Theorem getMsUntilNextBoundary_bounds (now now' : Date)
    (lightStart darkStart : jsstring) (L D : Z) :
  timeToMinutes lightStart = Normal L ->
  timeToMinutes darkStart = Normal D ->
  let C := getCurrentMinutes now in
  let C' := getCurrentMinutes now' in
  0 <= C < 1440 -> 0 <= C' < 1440 ->
  exists nb ms,
    getNextBoundary now' lightStart darkStart = Normal nb
    /\ getMsUntilNextBoundary now now' lightStart darkStart = Normal ms
    /\ ms = (if nb - C <? 0 then nb - C + 1440 else nb - C) * 60000
    /\ 0 <= ms
    /\ (C' = C \/ C' = (C + 1) mod 1440 -> ms <= 1440 * 60000)
    /\ (C' = C ->
          (L = D /\ C = L -> ms = 0)
          /\ (~ (L = D /\ C = L) -> 0 < ms)).
Proof.
  intros HL HD C C' HC HC'.
  destruct (getMsUntilNextBoundary_two_readings now now' _ _ L D HL HD HC HC')
    as (nb & k & Hnb & Hms & Hk & Hrange & Hnear & Hsame).
  fold C in Hk. fold C C' in Hnear, Hsame.
  exists nb, (k * 60000). split_and!; try done.
  - by rewrite Hk.
  - lia.
  - intros Hc. specialize (Hnear Hc). lia.
  - intros Hc. destruct (Hsame Hc) as [_ Hzero]. split.
    + intros Hdeg. apply Hzero in Hdeg. lia.
    + intros Hdeg. assert (k <> 0) by (intros Hz; by apply Hdeg, Hzero). lia.
Qed.

Lemma getMsUntilNextBoundary_bounds_witness :
  exists nb ms,
    getNextBoundary (clockAt 500) (js "07:00") (js "22:00") = Normal nb
    /\ getMsUntilNextBoundary (clockAt 500) (clockAt 500)
         (js "07:00") (js "22:00") = Normal ms
    /\ ms = (if nb - getCurrentMinutes (clockAt 500) <? 0
             then nb - getCurrentMinutes (clockAt 500) + 1440
             else nb - getCurrentMinutes (clockAt 500)) * 60000
    /\ 0 <= ms
    /\ (getCurrentMinutes (clockAt 500) = getCurrentMinutes (clockAt 500)
        \/ getCurrentMinutes (clockAt 500)
           = (getCurrentMinutes (clockAt 500) + 1) mod 1440 ->
        ms <= 1440 * 60000)
    /\ (getCurrentMinutes (clockAt 500) = getCurrentMinutes (clockAt 500) ->
          (420 = 1320 /\ getCurrentMinutes (clockAt 500) = 420 -> ms = 0)
          /\ (~ (420 = 1320 /\ getCurrentMinutes (clockAt 500) = 420) ->
              0 < ms)).
Proof.
  apply (getMsUntilNextBoundary_bounds (clockAt 500) (clockAt 500)
           (js "07:00") (js "22:00") 420 1320);
    [reflexivity | reflexivity | |];
    rewrite getCurrentMinutes_clockAt; lia.
Defined.

(** When the minute changes between the two readings the result can be
    0 ms for two different boundaries (07:01 / 07:00, read at 07:00 and
    then at 07:01), and a whole day (07:00 / 07:01, same readings); after
    a larger change of the clock it can exceed a day. *)
Example readings_in_different_minutes :
  getMsUntilNextBoundary (clockAt 420) (clockAt 421) (js "07:01") (js "07:00")
    = Normal 0
  /\ getMsUntilNextBoundary (clockAt 420) (clockAt 421) (js "07:00")
       (js "07:01") = Normal (1440 * 60000)
  /\ getMsUntilNextBoundary (clockAt 0) (clockAt 1320) (js "07:00")
       (js "22:00") = Normal (1860 * 60000).
Proof. by vm_compute. Qed.

End SchedulerClaims.

(** ** Configuration fallback *)

Section ConfigFallback.
Local Open Scope Z_scope.

(** [isValidTimeConfig] answers [true] exactly when both values are
    strings that parse. *)
Lemma isValidTimeConfig_true_iff (a b : JsVal) :
  isValidTimeConfig a b = true <->
  exists sa sb La Lb,
    a = JsStr sa /\ b = JsStr sb
    /\ timeToMinutes sa = Normal La /\ timeToMinutes sb = Normal Lb.
Proof.
  unfold isValidTimeConfig, timeToMinutesVal. split.
  - destruct a as [|sa]; [done|]. simpl.
    destruct (timeToMinutes sa) as [La|] eqn:Ea; [|done]. simpl.
    destruct b as [|sb]; [done|]. simpl.
    destruct (timeToMinutes sb) as [Lb|] eqn:Eb; [|done].
    intros _. by exists sa, sb, La, Lb.
  - intros (sa & sb & La & Lb & -> & -> & Ea & Eb). simpl.
    by rewrite Ea, Eb.
Qed.

(** On boundaries that parse the scheduler has no error case. *)
Lemma scheduler_calls_complete now now' ls ds L D :
  timeToMinutes ls = Normal L -> timeToMinutes ds = Normal D ->
  (exists theme, getThemeFromTime now ls ds = Normal theme)
  /\ (exists ms, getMsUntilNextBoundary now now' ls ds = Normal ms).
Proof.
  intros HL HD. split.
  - unfold getThemeFromTime.
    rewrite (isLightTime_parsed _ _ _ _ HL HD). simpl. eauto.
  - pose proof (getNextBoundary_parsed _ _ _ _ HL HD now') as Hnb.
    rewrite (getMsUntilNextBoundary_parsed _ _ _ _ _ Hnb). eauto.
Qed.

Lemma defaults_parse :
  timeToMinutes DEFAULT_LIGHT_START = Normal 420
  /\ timeToMinutes DEFAULT_DARK_START = Normal 1320.
Proof. by vm_compute. Qed.

(** C8: whatever the caller passes, the merged configuration holds two
    boundary strings that parse, so the scheduler calls the provider
    makes on them complete normally at all clock readings; and when the configured pair is
    rejected by [isValidTimeConfig] (one of the two does not parse), the
    provider has put the defaults "07:00" and "22:00" in their place. *)
Theorem mergedConfig_time_valid (config : option PartialThemeConfig) :
  let configured := spread DEFAULT_CONFIG (default emptyConfig config) in
  let used := mergedConfig config in
  (exists ls ds L D,
      lightStart used = JsStr ls /\ darkStart used = JsStr ds
      /\ timeToMinutes ls = Normal L /\ timeToMinutes ds = Normal D
      /\ forall now now',
           (exists theme, getThemeFromTime now ls ds = Normal theme)
           /\ (exists ms, getMsUntilNextBoundary now now' ls ds = Normal ms))
  /\ isValidTimeConfig (lightStart used) (darkStart used) = true
  /\ (isValidTimeConfig (lightStart configured) (darkStart configured)
        = false ->
      lightStart used = JsStr (js "07:00")
      /\ darkStart used = JsStr (js "22:00")).
Proof.
  cbv zeta. unfold mergedConfig.
  set (configured := spread DEFAULT_CONFIG (default emptyConfig config)).
  destruct (isValidTimeConfig (lightStart configured) (darkStart configured))
    eqn:Hvalid; simpl.
  - split_and!; [|done|done].
    apply isValidTimeConfig_true_iff in Hvalid
      as (sa & sb & La & Lb & ? & ? & ? & ?).
    exists sa, sb, La, Lb. eauto 10 using scheduler_calls_complete.
  - destruct defaults_parse as [HL HD].
    split_and!; [|by vm_compute|done].
    exists DEFAULT_LIGHT_START, DEFAULT_DARK_START, 420, 1320.
    eauto 10 using scheduler_calls_complete.
Qed.

Lemma mergedConfig_time_valid_witness :
  lightStart (mergedConfig (Some badHourConfig)) = JsStr (js "07:00")
  /\ darkStart (mergedConfig (Some badHourConfig)) = JsStr (js "22:00").
Proof.
  apply (mergedConfig_time_valid (Some badHourConfig)). reflexivity.
Defined.

(** A property that is present but [undefined] overrides the default
    and is then rejected like any other unparseable value. *)
Example mergedConfig_undefined_boundary :
  darkStart (spread DEFAULT_CONFIG undefinedDarkConfig) = JsUndefined
  /\ lightStart (mergedConfig (Some undefinedDarkConfig)) = JsStr (js "07:00")
  /\ darkStart (mergedConfig (Some undefinedDarkConfig)) = JsStr (js "22:00").
Proof. by vm_compute. Qed.

End ConfigFallback.

(** ** The storage shim *)

Section StorageShim.
Context {S : Type} `{WebStorage S}.

Lemma bindM_normal {A B} (c : JsM S A) (k : A -> JsM S B) h a h' :
  c h = (Normal a, h') -> bindM c k h = k a h'.
Proof. unfold bindM. by intros ->. Qed.

Lemma bindM_throw {A B} (c : JsM S A) (k : A -> JsM S B) h e h' :
  c h = (Throw e, h') -> bindM c k h = (Throw e, h').
Proof. unfold bindM. by intros ->. Qed.

(** A [try] whose handler returns a constant completes normally. *)
Lemma tryCatch_const {A} (body : JsM S A) (x : A) h :
  (exists a h', body h = (Normal a, h')
                /\ tryCatch body (fun _ => retM x) h = (Normal a, h'))
  \/ (exists e h', body h = (Throw e, h')
                /\ tryCatch body (fun _ => retM x) h = (Normal x, h')).
Proof.
  unfold tryCatch. destruct (body h) as [[a|e] h']; [left|right]; eauto.
Qed.

Lemma onLocalStorage_no_window {A} (op : S -> Completion A * S) h :
  window h = None -> onLocalStorage op h = (Throw ReferenceError, h).
Proof. unfold onLocalStorage. by intros ->. Qed.

(** The probe never throws; without a [window] it answers [false] and
    touches nothing. *)
Lemma isStorageAvailable_total h :
  exists b h', isStorageAvailable h = (Normal b, h')
               /\ (window h = None -> b = false /\ h' = h).
Proof.
  unfold isStorageAvailable.
  rewrite (bindM_normal _ _ h
             (match window h with None => true | Some _ => false end) h)
    by done.
  destruct (window h) as [s|] eqn:Hw.
  - match goal with |- context [tryCatch ?body _ h] =>
      destruct (tryCatch_const body false h)
        as [(a & h' & _ & ->) | (e & h' & _ & ->)] end;
      do 2 eexists; (split; [reflexivity | done]).
  - unfold retM. eauto.
Qed.

Lemma getStoredMode_unfold key h b h1 :
  isStorageAvailable h = (Normal b, h1) ->
  getStoredMode key h =
    if b then
      match localStorage_getItem key h1 with
      | (Normal stored, h2) =>
          (Normal (if strictEq stored MODE_AUTO || strictEq stored MODE_LIGHT
                      || strictEq stored MODE_DARK
                   then stored else None), h2)
      | (Throw _, h2) => (Normal None, h2)
      end
    else (Normal None, h1).
Proof.
  intros Hp. unfold getStoredMode. rewrite (bindM_normal _ _ _ _ _ Hp).
  destruct b; simpl; [|done].
  unfold tryCatch, bindM, retM.
  destruct (localStorage_getItem key h1) as [[stored|e] h2]; [|done].
  by destruct (strictEq stored MODE_AUTO || strictEq stored MODE_LIGHT
               || strictEq stored MODE_DARK).
Qed.

Lemma storeMode_unfold mode key h b h1 :
  isStorageAvailable h = (Normal b, h1) ->
  storeMode mode key h =
    if b then
      match localStorage_setItem key mode h1 with
      | (Normal _, h2) => (Normal true, h2)
      | (Throw _, h2) => (Normal false, h2)
      end
    else (Normal false, h1).
Proof.
  intros Hp. unfold storeMode. rewrite (bindM_normal _ _ _ _ _ Hp).
  destruct b; simpl; [|done].
  unfold tryCatch, bindM, retM.
  by destruct (localStorage_setItem key mode h1) as [[u|e] h2].
Qed.

Lemma clearStoredMode_unfold key h b h1 :
  isStorageAvailable h = (Normal b, h1) ->
  clearStoredMode key h =
    if b then
      match localStorage_removeItem key h1 with
      | (Normal _, h2) => (Normal true, h2)
      | (Throw _, h2) => (Normal false, h2)
      end
    else (Normal false, h1).
Proof.
  intros Hp. unfold clearStoredMode. rewrite (bindM_normal _ _ _ _ _ Hp).
  destruct b; simpl; [|done].
  unfold tryCatch, bindM, retM.
  by destruct (localStorage_removeItem key h1) as [[u|e] h2].
Qed.

(** The three comparisons of [getStoredMode] accept exactly the
    well-formed modes. *)
Lemma mode_test_true_iff (stored : option jsstring) :
  strictEq stored MODE_AUTO || strictEq stored MODE_LIGHT
    || strictEq stored MODE_DARK = true
  <-> exists m, stored = Some m /\ isMode m.
Proof.
  unfold strictEq, isMode, MODE_AUTO, MODE_LIGHT, MODE_DARK.
  destruct stored as [m|]; simpl.
  - rewrite !orb_true_iff, !bool_decide_eq_true. split.
    + intros Hm. exists m. split; [done|tauto].
    + intros (m' & [= <-] & Hm). tauto.
  - split; [done|]. by intros (m & ? & _).
Qed.

End StorageShim.

(** ** Store accesses on a store that keeps the Web Storage contract *)

Section StorageCalls.
Context {S : Type} `{WebStorage S}.
Variable view : S -> gmap jsstring jsstring.
Hypothesis contract : Contract view.

Lemma localStorage_getItem_contents k h r h' :
  localStorage_getItem k h = (Normal r, h') ->
  r = contents view h !! k /\ contents view h' = contents view h.
Proof using contract.
  unfold localStorage_getItem, onLocalStorage, contents.
  destruct (window h) as [s|]; [|done].
  destruct (getItem k s) as [c s'] eqn:E. intros [= -> <-]. simpl.
  eapply getItem_returns; eauto.
Qed.

Lemma localStorage_setItem_contents k v h u h' :
  localStorage_setItem k v h = (Normal u, h') ->
  contents view h' = <[k := v]> (contents view h).
Proof using contract.
  unfold localStorage_setItem, onLocalStorage, contents.
  destruct (window h) as [s|]; [|done].
  destruct (setItem k v s) as [c s'] eqn:E. intros [= -> <-]. simpl.
  eapply setItem_returns; eauto.
Qed.

Lemma localStorage_removeItem_contents k h u h' :
  localStorage_removeItem k h = (Normal u, h') ->
  contents view h' = delete k (contents view h).
Proof using contract.
  unfold localStorage_removeItem, onLocalStorage, contents.
  destruct (window h) as [s|]; [|done].
  destruct (removeItem k s) as [c s'] eqn:E. intros [= -> <-]. simpl.
  eapply removeItem_returns; eauto.
Qed.

End StorageCalls.

(** ** What a failed operation leaves behind *)

Section StorageFrame.
Context {S : Type} `{WebStorage S}.
Variable view : S -> gmap jsstring jsstring.
Hypothesis contract : Contract view.
Hypothesis keeps : KeepsOnThrow view.

Lemma onLocalStorage_throws {A} (op : S -> Completion A * S) h e h' :
  (forall s e s', op s = (Throw e, s') -> view s' = view s) ->
  onLocalStorage op h = (Throw e, h') -> contents view h' = contents view h.
Proof.
  intros Hop. unfold onLocalStorage, contents.
  destruct (window h) as [s|] eqn:Hw; [|intros [= _ <-]; by rewrite Hw].
  destruct (op s) as [c s'] eqn:E. intros [= -> <-]. simpl. eauto.
Qed.

(** Whatever the probe answers, it touches no key but its own. *)
Lemma probe_frame h b h1 k :
  isStorageAvailable h = (Normal b, h1) -> k <> testKey ->
  contents view h1 !! k = contents view h !! k.
Proof using contract keeps.
  intros Hp Hk. revert Hp. unfold isStorageAvailable.
  rewrite (bindM_normal _ _ h
             (match window h with None => true | Some _ => false end) h)
    by done.
  destruct (window h) as [s|] eqn:Hw; [|by intros [= _ <-]].
  unfold tryCatch, bindM, retM.
  destruct (localStorage_setItem testKey testKey h) as [[u|e] h2] eqn:Hset.
  - apply (localStorage_setItem_contents view contract) in Hset.
    destruct (localStorage_removeItem testKey h2) as [[u'|e] h3] eqn:Hrem.
    + apply (localStorage_removeItem_contents view contract) in Hrem.
      intros [= _ <-].
      by rewrite Hrem, Hset, lookup_delete_ne, lookup_insert_ne.
    + apply onLocalStorage_throws in Hrem; [|apply keeps].
      intros [= _ <-]. by rewrite Hrem, Hset, lookup_insert_ne.
  - apply onLocalStorage_throws in Hset; [|apply keeps].
    intros [= _ <-]. by rewrite Hset.
Qed.

Lemma getStoredMode_frame key h r h' k :
  getStoredMode key h = (Normal r, h') -> k <> testKey ->
  contents view h' !! k = contents view h !! k.
Proof using contract keeps.
  destruct (isStorageAvailable_total h) as (b & h1 & Hp & _).
  rewrite (getStoredMode_unfold key h b h1 Hp). intros Hr Hk.
  rewrite <- (probe_frame h b h1 k Hp Hk).
  destruct b; [|by injection Hr as _ <-].
  destruct (localStorage_getItem key h1) as [[stored|e] h2] eqn:Hget;
    injection Hr as _ <-.
  - by destruct (localStorage_getItem_contents view contract _ _ _ _ Hget)
      as [_ ->].
  - apply onLocalStorage_throws in Hget; [|apply keeps]. by rewrite Hget.
Qed.

Lemma storeMode_frame mode key h h' k :
  storeMode mode key h = (Normal false, h') -> k <> testKey ->
  contents view h' !! k = contents view h !! k.
Proof using contract keeps.
  destruct (isStorageAvailable_total h) as (b & h1 & Hp & _).
  rewrite (storeMode_unfold mode key h b h1 Hp). intros Hr Hk.
  rewrite <- (probe_frame h b h1 k Hp Hk).
  destruct b; [|by injection Hr as <-].
  destruct (localStorage_setItem key mode h1) as [[u|e] h2] eqn:Hset;
    [done|]. injection Hr as <-.
  apply onLocalStorage_throws in Hset; [|apply keeps]. by rewrite Hset.
Qed.

Lemma clearStoredMode_frame key h h' k :
  clearStoredMode key h = (Normal false, h') -> k <> testKey ->
  contents view h' !! k = contents view h !! k.
Proof using contract keeps.
  destruct (isStorageAvailable_total h) as (b & h1 & Hp & _).
  rewrite (clearStoredMode_unfold key h b h1 Hp). intros Hr Hk.
  rewrite <- (probe_frame h b h1 k Hp Hk).
  destruct b; [|by injection Hr as <-].
  destruct (localStorage_removeItem key h1) as [[u|e] h2] eqn:Hrem;
    [done|]. injection Hr as <-.
  apply onLocalStorage_throws in Hrem; [|apply keeps]. by rewrite Hrem.
Qed.

End StorageFrame.

Section StorageClaims.
Context {S : Type} `{WebStorage S}.

(** C9 (amended): [getStoredMode], [storeMode] and [clearStoredMode]
    complete normally on every host, key and value.  Without a [window]
    they return [null] / [false] and leave the host as it was; when the
    probe of the store fails they return [null] / [false]; and when the
    probe passes but the access itself throws, they return [null] /
    [false] as well.  An operation that fails is a no-op on every entry
    of the store except the one under "__storage_test__" (for a store
    that keeps the Web Storage contract and that a throwing call leaves
    as it was): that entry is written and removed by the probe. *)
Theorem storage_never_throws (h : Host S) (key mode : jsstring) :
  ((exists r h', getStoredMode key h = (Normal r, h'))
   /\ (exists b h', storeMode mode key h = (Normal b, h'))
   /\ (exists b h', clearStoredMode key h = (Normal b, h')))
  /\ (window h = None ->
        getStoredMode key h = (Normal None, h)
        /\ storeMode mode key h = (Normal false, h)
        /\ clearStoredMode key h = (Normal false, h))
  /\ (forall h1, isStorageAvailable h = (Normal false, h1) ->
        getStoredMode key h = (Normal None, h1)
        /\ storeMode mode key h = (Normal false, h1)
        /\ clearStoredMode key h = (Normal false, h1))
  /\ (forall h1, isStorageAvailable h = (Normal true, h1) ->
        (forall e h2, localStorage_getItem key h1 = (Throw e, h2) ->
           getStoredMode key h = (Normal None, h2))
        /\ (forall e h2, localStorage_setItem key mode h1 = (Throw e, h2) ->
           storeMode mode key h = (Normal false, h2))
        /\ (forall e h2, localStorage_removeItem key h1 = (Throw e, h2) ->
           clearStoredMode key h = (Normal false, h2)))
  /\ (forall (view : S -> gmap jsstring jsstring) (k : jsstring),
        Contract view -> KeepsOnThrow view -> k <> testKey ->
        (forall r h', getStoredMode key h = (Normal r, h') ->
           contents view h' !! k = contents view h !! k)
        /\ (forall h', storeMode mode key h = (Normal false, h') ->
           contents view h' !! k = contents view h !! k)
        /\ (forall h', clearStoredMode key h = (Normal false, h') ->
           contents view h' !! k = contents view h !! k)).
Proof.
  destruct (isStorageAvailable_total h) as (b & h1 & Hp & Hnw).
  pose proof (getStoredMode_unfold key h b h1 Hp) as Hg.
  pose proof (storeMode_unfold mode key h b h1 Hp) as Hs.
  pose proof (clearStoredMode_unfold key h b h1 Hp) as Hc.
  split_and!.
  - rewrite Hg. destruct b; [|eauto].
    destruct (localStorage_getItem key h1) as [[?|?] ?]; eauto.
  - rewrite Hs. destruct b; [|eauto].
    destruct (localStorage_setItem key mode h1) as [[?|?] ?]; eauto.
  - rewrite Hc. destruct b; [|eauto].
    destruct (localStorage_removeItem key h1) as [[?|?] ?]; eauto.
  - intros Hw. destruct (Hnw Hw) as [-> ->]. by rewrite Hg, Hs, Hc.
  - intros h1' Hp'. rewrite Hp in Hp'. injection Hp' as -> ->.
    by rewrite Hg, Hs, Hc.
  - intros h1' Hp'. rewrite Hp in Hp'. injection Hp' as -> ->.
    split_and!; intros e h2 He.
    + by rewrite Hg, He.
    + by rewrite Hs, He.
    + by rewrite Hc, He.
  - intros view k Hcontract Hkeeps Hk. split_and!.
    + intros r h' Hr. by eapply getStoredMode_frame.
    + intros h' Hr. by eapply storeMode_frame.
    + intros h' Hr. by eapply clearStoredMode_frame.
Qed.

(** C10: what [getStoredMode] returns is [null] or one of "auto",
    "light", "dark"; a stored string that is none of the three yields
    [null] and one of the three is returned as it is; so
    [getStoredModeWithFallback] with a well-formed default returns a
    well-formed mode. *)
Theorem getStoredMode_well_formed (h : Host S)
    (key defaultMode : jsstring) :
  (forall r h', getStoredMode key h = (Normal r, h') ->
     r = None \/ exists m, r = Some m /\ isMode m)
  /\ (forall h1 m h2,
        isStorageAvailable h = (Normal true, h1) ->
        localStorage_getItem key h1 = (Normal (Some m), h2) ->
        (isMode m -> getStoredMode key h = (Normal (Some m), h2))
        /\ (~ isMode m -> getStoredMode key h = (Normal None, h2)))
  /\ (isMode defaultMode ->
      exists m h',
        getStoredModeWithFallback key defaultMode h = (Normal m, h')
        /\ isMode m).
Proof.
  destruct (isStorageAvailable_total h) as (b & h1 & Hp & _).
  pose proof (getStoredMode_unfold key h b h1 Hp) as Hg.
  assert (Hres : exists r h',
             getStoredMode key h = (Normal r, h')
             /\ (r = None \/ exists m, r = Some m /\ isMode m)).
  { rewrite Hg. destruct b; [|eauto].
    destruct (localStorage_getItem key h1) as [[stored|e] h2]; [|eauto].
    destruct (strictEq stored MODE_AUTO || strictEq stored MODE_LIGHT
              || strictEq stored MODE_DARK) eqn:Ht; [|eauto].
    apply mode_test_true_iff in Ht. eauto. }
  destruct Hres as (r & h' & Hr & Hwf).
  split_and!.
  - intros r' h'' Hr'. rewrite Hr in Hr'. by injection Hr' as <- <-.
  - intros h1' m h2 Hp' Hget. rewrite Hp in Hp'. injection Hp' as -> ->.
    rewrite Hg, Hget.
    pose proof (mode_test_true_iff (Some m)) as Ht.
    destruct (strictEq (Some m) MODE_AUTO || strictEq (Some m) MODE_LIGHT
              || strictEq (Some m) MODE_DARK).
    + split; [done|]. intros Hno. exfalso.
      destruct (proj1 Ht eq_refl) as (m' & [= <-] & Hm). auto.
    + split; [|done]. intros Hm. exfalso.
      assert (false = true) by (apply Ht; eauto). done.
  - intros Hdef. unfold getStoredModeWithFallback.
    rewrite (bindM_normal _ _ _ _ _ Hr). unfold retM.
    do 2 eexists. split; [reflexivity|].
    destruct Hwf as [-> | (m & -> & Hm)]; done.
Qed.

End StorageClaims.

Section StorageExamples.

(** C9, as stated, fails: an operation that fails is not a no-op.  On a
    store with room for 40 code units that holds an entry under
    "__storage_test__", a write of 45 units fails and [storeMode] returns
    [false], but the entry is gone: the probe that came first has
    overwritten and removed it. *)
Lemma failed_write_removes_test_entry :
  storeMode (js "light") (js "a-storage-key-that-is-forty-units-long--")
    (browser [(testKey, js "kept")] 40 false)
  = (Normal false, browser [] 40 false)
  /\ contents items (browser [(testKey, js "kept")] 40 false) !! testKey
     = Some (js "kept")
  /\ contents items (browser [] 40 false) !! testKey = None.
Proof. by vm_compute. Qed.

(** The browser store of the examples keeps the contract, and a call
    that throws leaves it as it was. *)
Lemma browser_storage_contract : Contract items.
Proof.
  split; simpl.
  - intros k s r s'. destruct (accessDenied s); [done|]. by intros [= <- <-].
  - intros k v s u s'. destruct (accessDenied s); [done|].
    destruct (_ <=? _)%nat; [|done]. by intros [= _ <-].
  - intros k s u s'. destruct (accessDenied s); [done|]. by intros [= _ <-].
Qed.

Lemma browser_storage_keeps : KeepsOnThrow items.
Proof.
  split; simpl.
  - intros k s e s'. destruct (accessDenied s); [|done]. by intros [= _ <-].
  - intros k v s e s'. destruct (accessDenied s); [by intros [= _ <-]|].
    destruct (_ <=? _)%nat; [done|]. by intros [= _ <-].
  - intros k s e s'. destruct (accessDenied s); [|done]. by intros [= _ <-].
Qed.

(** A write over the quota on a store that holds two entries:
    [storeMode] returns [false], the entry under "__storage_test__" is
    gone and the other one is still there. *)
Lemma storage_never_throws_witness :
  contents items (browser [(js "other", js "x")] 40 false) !! js "other"
  = contents items (browser [(testKey, js "kept"); (js "other", js "x")]
                      40 false) !! js "other".
Proof.
  destruct (storage_never_throws
              (browser [(testKey, js "kept"); (js "other", js "x")] 40 false)
              (js "a-storage-key-that-is-forty-units-long--") (js "light"))
    as (_ & _ & _ & _ & Hframe).
  destruct (Hframe items (js "other") browser_storage_contract
              browser_storage_keeps) as (_ & Hstore & _); [discriminate|].
  apply Hstore. by vm_compute.
Defined.

(** A foreign value under the key: the fallback is returned. *)
Lemma getStoredMode_well_formed_witness :
  exists m h',
    getStoredModeWithFallback (js "auto-theme-mode") (js "auto")
      (browser [(js "auto-theme-mode", js "Light")] 100 false)
      = (Normal m, h')
    /\ isMode m.
Proof.
  apply (getStoredMode_well_formed
           (browser [(js "auto-theme-mode", js "Light")] 100 false)
           (js "auto-theme-mode") (js "auto")).
  left. reflexivity.
Defined.

End StorageExamples.

(** ** Worked examples of the specification *)

Section WorkedExamples.
Local Open Scope Z_scope.

Example day_schedule_at_0820 :
  isLightTime (clockAt 500) (js "07:00") (js "22:00") = Normal true
  /\ getNextBoundary (clockAt 500) (js "07:00") (js "22:00") = Normal 1320
  /\ getMsUntilNextBoundary (clockAt 500) (clockAt 500) (js "07:00")
       (js "22:00") = Normal 49200000.
Proof. by vm_compute. Qed.

Example night_schedule_at_0030 :
  isLightTime (clockAt 30) (js "22:00") (js "07:00") = Normal true
  /\ getNextBoundary (clockAt 30) (js "22:00") (js "07:00") = Normal 420
  /\ getMsUntilNextBoundary (clockAt 30) (clockAt 30) (js "22:00")
       (js "07:00") = Normal (390 * 60000).
Proof. by vm_compute. Qed.

Example night_schedule_at_1320 :
  isLightTime (clockAt 800) (js "22:00") (js "07:00") = Normal false
  /\ getNextBoundary (clockAt 800) (js "22:00") (js "07:00") = Normal 1320
  /\ getMsUntilNextBoundary (clockAt 800) (clockAt 800) (js "22:00")
       (js "07:00") = Normal (520 * 60000).
Proof. by vm_compute. Qed.

(** Past [lightStart] in the wrapping case the boundary is returned
    without a day offset; [getMsUntilNextBoundary] adds the day. *)
Example night_schedule_at_2320 :
  getNextBoundary (clockAt 1400) (js "22:00") (js "07:00") = Normal 420
  /\ getMsUntilNextBoundary (clockAt 1400) (clockAt 1400) (js "22:00")
       (js "07:00") = Normal ((420 + 1440 - 1400) * 60000).
Proof. by vm_compute. Qed.

Example parse_failures :
  timeToMinutes (js "1:2:3") = Throw (Error (InvalidTimeFormat (js "1:2:3")))
  /\ timeToMinutes (js " 0700") = Throw (Error (InvalidTimeFormat (js " 0700")))
  /\ timeToMinutes (js "ab:10") = Throw (Error (InvalidTimeValues (js "ab:10")))
  /\ timeToMinutes (js "07:") = Throw (Error (InvalidTimeValues (js "07:")))
  /\ timeToMinutes (js "24:00") = Throw (Error (InvalidHourValue 24))
  /\ timeToMinutes (js "-1:00") = Throw (Error (InvalidHourValue (-1)))
  /\ timeToMinutes (js "23:60") = Throw (Error (InvalidMinuteValue 60)).
Proof. by vm_compute. Qed.

(** A mode is stored and read back; a write over the quota after a
    passed probe gives [false] and changes nothing. *)
Example store_then_read :
  fst (bindM (storeMode (js "dark") (js "auto-theme-mode"))
         (fun _ => getStoredMode (js "auto-theme-mode"))
         (browser [] 100 false))
  = Normal (Some (js "dark")).
Proof. by vm_compute. Qed.

Example write_over_quota :
  isStorageAvailable (browser [] 40 false)
    = (Normal true, browser [] 40 false)
  /\ storeMode (js "light") (js "a-storage-key-that-is-forty-units-long--")
       (browser [] 40 false)
     = (Normal false, browser [] 40 false).
Proof. by vm_compute. Qed.

Example no_window :
  getStoredModeWithFallback (js "auto-theme-mode") (js "auto") serverSide
  = (Normal (js "auto"), serverSide).
Proof. by vm_compute. Qed.

End WorkedExamples.

(** * Further properties of the code *)

(** ** Trimming in general *)

Section TrimLemmas.

Lemma dropWhile_all p a : forallb p a = true -> dropWhile p a = [].
Proof.
  induction a as [|c a IH]; simpl; [done|].
  rewrite andb_true_iff. intros [-> Ha]. auto.
Qed.

Lemma dropWhile_app_some p a b :
  forallb p a = false -> dropWhile p (a ++ b) = dropWhile p a ++ b.
Proof.
  induction a as [|c a IH]; simpl; [done|].
  destruct (p c); simpl; [auto | done].
Qed.

Lemma trimEnd_nil : trimEnd [] = [].
Proof. done. Qed.

Lemma trimEnd_app_space x ws :
  forallb isWhiteSpace ws = true -> trimEnd (x ++ ws) = trimEnd x.
Proof.
  intros Hws. unfold trimEnd.
  by rewrite rev_app_distr, dropWhile_app_all by by apply forallb_rev'.
Qed.

(** What [trimEnd] removes is a run of white space at the end. *)
Lemma trimEnd_split j :
  exists ws, j = trimEnd j ++ ws /\ forallb isWhiteSpace ws = true.
Proof.
  exists (rev (takeWhile isWhiteSpace (rev j))). unfold trimEnd. split.
  - rewrite <- rev_app_distr, takeWhile_dropWhile. by rewrite rev_involutive.
  - apply forallb_rev', takeWhile_forallb.
Qed.

(** Text after a unit that is not white space is trimmed on its own. *)
Lemma trimEnd_app_keep a cl j :
  isWhiteSpace cl = false ->
  trimEnd ((a ++ [cl]) ++ j) = (a ++ [cl]) ++ trimEnd j.
Proof.
  intros Hcl. unfold trimEnd. rewrite rev_app_distr.
  destruct (forallb isWhiteSpace (rev j)) eqn:Hj.
  - rewrite dropWhile_app_all by done.
    rewrite (dropWhile_all _ _ Hj).
    replace (rev (a ++ [cl])) with (cl :: rev a) by (by rewrite rev_app_distr).
    rewrite dropWhile_stop by done.
    simpl. by rewrite rev_involutive, app_nil_r.
  - rewrite dropWhile_app_some by done.
    by rewrite rev_app_distr, rev_involutive.
Qed.

(** [trim] does not see white space added around its argument. *)
Lemma trim_surrounded ws1 ws2 s :
  forallb isWhiteSpace ws1 = true -> forallb isWhiteSpace ws2 = true ->
  trim (ws1 ++ s ++ ws2) = trim s.
Proof.
  intros H1 H2. unfold trim, trimStart.
  rewrite dropWhile_app_all by done.
  destruct (forallb isWhiteSpace s) eqn:Hs.
  - rewrite dropWhile_app_all by done.
    by rewrite (dropWhile_all _ _ H2), (dropWhile_all _ _ Hs).
  - rewrite dropWhile_app_some by done. by apply trimEnd_app_space.
Qed.

Lemma takeWhile_app_stop p a b :
  forallb p a = true ->
  match b with [] => true | c :: _ => negb (p c) end = true ->
  takeWhile p (a ++ b) = a.
Proof.
  intros Ha Hb. induction a as [|c a IH]; simpl in *.
  - destruct b as [|c b]; [done|]. simpl.
    apply negb_true_iff in Hb. by rewrite Hb.
  - apply andb_true_iff in Ha as [-> Ha]. by rewrite IH.
Qed.

(** [parseInt] reads the leading digits and stops at the first unit
    that is not one. *)
Lemma parseInt10_digits_then ds rest :
  ds <> [] -> forallb isDigit ds = true ->
  match rest with [] => true | c :: _ => negb (isDigit c) end = true ->
  parseInt10 (ds ++ rest) = Some (digitsValue ds).
Proof.
  destruct ds as [|d ds]; [done|]. intros _ Hall Hrest.
  assert (Hd : isDigit d = true) by (simpl in Hall; by destruct (isDigit d)).
  unfold parseInt10, trimStart. simpl app.
  rewrite dropWhile_stop by by apply digit_not_space.
  destruct (digit_not_sign d Hd) as [-> ->].
  change (d :: ds ++ rest) with ((d :: ds) ++ rest).
  rewrite takeWhile_app_stop by done.
  f_equal. apply Z.mul_1_l.
Qed.

End TrimLemmas.

(** ** More on timeToMinutes *)

Section TimeToMinutesExtras.
Local Open Scope Z_scope.

(** X1: whenever [timeToMinutes] returns, the result is a minute of the
    day, between 0 and 1439 (the "0-1439" of its docstring); no input
    yields a negative or larger number. *)
Theorem timeToMinutes_in_day (time : jsstring) (v : Z) :
  timeToMinutes time = Normal v -> 0 <= v <= 1439.
Proof.
  intros Hv.
  destruct (timeToMinutes_cases time)
    as [[_ E] | (p0 & p1 & _ & [[_ E] | (h & m & _ & _ &
          [[_ E] | [(_ & _ & E) | (Hh & Hm & E)]])])];
    rewrite E in Hv; try discriminate.
  injection Hv as <-. lia.
Qed.

Lemma timeToMinutes_in_day_witness : 0 <= 1439 <= 1439.
Proof. apply (timeToMinutes_in_day (js "23:59") 1439). reflexivity. Defined.

(** X2: white space around the input changes neither the value nor the
    failing check.  A padded input returns what the bare string returns;
    when the bare string is rejected, the padded one is rejected with
    the same message, except that the two format messages quote the
    argument as passed, white space included, so there the quoted text
    differs. *)
Theorem timeToMinutes_trims (ws1 ws2 time : jsstring) :
  forallb isWhiteSpace ws1 = true -> forallb isWhiteSpace ws2 = true ->
  timeToMinutes (ws1 ++ time ++ ws2)
  = match timeToMinutes time with
    | Normal v => Normal v
    | Throw (Error (InvalidTimeFormat _)) =>
        Throw (Error (InvalidTimeFormat (ws1 ++ time ++ ws2)))
    | Throw (Error (InvalidTimeValues _)) =>
        Throw (Error (InvalidTimeValues (ws1 ++ time ++ ws2)))
    | Throw e => Throw e
    end.
Proof.
  intros H1 H2. unfold timeToMinutes. rewrite trim_surrounded by done.
  destruct (splitOn colon (trim time)) as [|p0 [|p1 [|]]]; try done.
  destruct (parseInt10 p0), (parseInt10 p1); try done.
  repeat case_match; done.
Qed.

Lemma timeToMinutes_trims_witness :
  timeToMinutes ([9; 32]%N ++ js "ab:10" ++ [10]%N)
  = match timeToMinutes (js "ab:10") with
    | Normal v => Normal v
    | Throw (Error (InvalidTimeFormat _)) =>
        Throw (Error (InvalidTimeFormat ([9; 32]%N ++ js "ab:10" ++ [10]%N)))
    | Throw (Error (InvalidTimeValues _)) =>
        Throw (Error (InvalidTimeValues ([9; 32]%N ++ js "ab:10" ++ [10]%N)))
    | Throw e => Throw e
    end.
Proof.
  apply (timeToMinutes_trims [9; 32]%N [10]%N (js "ab:10")); reflexivity.
Defined.

(** The same input with and without a leading space: the same check
    fails, and each message quotes its own argument. *)
Example padded_input_is_quoted_as_passed :
  timeToMinutes (js " ab:10")
    = Throw (Error (InvalidTimeValues (js " ab:10")))
  /\ timeToMinutes (js "ab:10")
     = Throw (Error (InvalidTimeValues (js "ab:10"))).
Proof. by vm_compute. Qed.

(** X3: text after the digits of the minutes is ignored.  With numerals
    in range for hours and minutes, followed by any text that holds no
    colon and does not begin with a digit, the parse succeeds with
    hours * 60 + minutes. *)
Theorem timeToMinutes_ignores_trailing_text (hh mm junk : jsstring) :
  hh <> [] -> forallb isDigit hh = true -> digitsValue hh <= 23 ->
  mm <> [] -> forallb isDigit mm = true -> digitsValue mm <= 59 ->
  forallb (fun c => negb (c =? colon)%N) junk = true ->
  match junk with [] => true | c :: _ => negb (isDigit c) end = true ->
  timeToMinutes (hh ++ colon :: mm ++ junk)
  = Normal (digitsValue hh * 60 + digitsValue mm).
Proof.
  intros Hh Hhd Hhr Hm Hmd Hmr Hjc Hj0.
  pose proof (digitsValue_nonneg hh Hhd).
  pose proof (digitsValue_nonneg mm Hmd).
  destruct hh as [|c0 hh']; [done|].
  destruct (nonempty_last mm Hm) as (mm' & cl & ->).
  assert (Hc0 : isDigit c0 = true) by (simpl in Hhd; by destruct (isDigit c0)).
  assert (Hcl : isDigit cl = true).
  { rewrite forallb_app in Hmd. simpl in Hmd.
    destruct (isDigit cl); [done|]. by rewrite !andb_false_r in Hmd. }
  destruct (trimEnd_split junk) as (ws & Hjunk & Hws).
  set (junk' := trimEnd junk) in *.
  assert (Hjc' : forallb (fun c => negb (c =? colon)%N) junk' = true).
  { rewrite Hjunk, forallb_app in Hjc. by apply andb_true_iff in Hjc as [? _]. }
  assert (Hj0' : match junk' with [] => true | c :: _ => negb (isDigit c) end
                 = true).
  { destruct junk' as [|c j]; [done|]. by rewrite Hjunk in Hj0. }
  assert (Htrim : trim ((c0 :: hh') ++ colon :: (mm' ++ [cl]) ++ junk)
                  = (c0 :: hh') ++ colon :: (mm' ++ [cl]) ++ junk').
  { unfold trim, trimStart. simpl app at 1.
    rewrite dropWhile_stop by by apply digit_not_space.
    replace (c0 :: hh' ++ colon :: (mm' ++ [cl]) ++ junk)
      with (((c0 :: hh' ++ colon :: mm') ++ [cl]) ++ junk)
      by (simpl; by rewrite <- !app_assoc).
    rewrite trimEnd_app_keep by by apply digit_not_space.
    simpl. by rewrite <- !app_assoc. }
  unfold timeToMinutes. rewrite Htrim.
  rewrite splitOn_first by by apply digits_no_colon.
  rewrite splitOn_none
    by (rewrite forallb_app, Hjc'; by rewrite digits_no_colon).
  rewrite (parseInt10_digits (c0 :: hh')) by done.
  rewrite (parseInt10_digits_then (mm' ++ [cl]) junk') by done.
  rewrite !Z.gtb_ltb.
  destruct (Z.ltb_spec (digitsValue (c0 :: hh')) 0); [lia|].
  destruct (Z.ltb_spec 23 (digitsValue (c0 :: hh'))); [lia|].
  destruct (Z.ltb_spec (digitsValue (mm' ++ [cl])) 0); [lia|].
  destruct (Z.ltb_spec 59 (digitsValue (mm' ++ [cl]))); [lia|].
  done.
Qed.

Lemma timeToMinutes_ignores_trailing_text_witness :
  timeToMinutes (js "10" ++ colon :: js "45" ++ js " pm  ")
  = Normal (digitsValue (js "10") * 60 + digitsValue (js "45")).
Proof.
  apply (timeToMinutes_ignores_trailing_text (js "10") (js "45") (js " pm  "));
    try reflexivity; try discriminate.
Defined.

End TimeToMinutesExtras.

(** ** More on the boundary scheduler *)

Section SchedulerExtras.
Local Open Scope Z_scope.

(** A parse error of either boundary reaches the caller of each
    scheduler function. *)
Lemma scheduler_rethrows_parse_error_aux (now now' : Date)
    (lightStart darkStart : jsstring) (e : Exn) :
  timeToMinutes lightStart = Throw e
  \/ (exists L, timeToMinutes lightStart = Normal L)
     /\ timeToMinutes darkStart = Throw e ->
  isLightTime now lightStart darkStart = Throw e
  /\ getThemeFromTime now lightStart darkStart = Throw e
  /\ getNextBoundary now lightStart darkStart = Throw e
  /\ getMsUntilNextBoundary now now' lightStart darkStart = Throw e.
Proof.
  intros Hfail.
  assert (Hl : isLightTime now lightStart darkStart = Throw e).
  { unfold isLightTime.
    destruct Hfail as [HL | [[L HL] HD]]; rewrite HL; [done|].
    simpl. by rewrite HD. }
  assert (Hn : forall c, getNextBoundary c lightStart darkStart = Throw e).
  { intros c. unfold getNextBoundary.
    destruct Hfail as [HL | [[L HL] HD]]; rewrite HL; [done|].
    simpl. by rewrite HD. }
  split_and!; [done | | done |].
  - unfold getThemeFromTime. by rewrite Hl.
  - unfold getMsUntilNextBoundary. by rewrite Hn.
Qed.

(** X4: the four scheduler functions parse [lightStart] first and
    [darkStart] second and do not catch anything: each of them throws the
    error of the first boundary string that fails to parse, at all
    clock readings. *)
Theorem scheduler_rethrows_parse_error (now now' : Date)
    (lightStart darkStart : jsstring) (e : Exn) :
  timeToMinutes lightStart = Throw e
  \/ (exists L, timeToMinutes lightStart = Normal L)
     /\ timeToMinutes darkStart = Throw e ->
  isLightTime now lightStart darkStart = Throw e
  /\ getThemeFromTime now lightStart darkStart = Throw e
  /\ getNextBoundary now lightStart darkStart = Throw e
  /\ getMsUntilNextBoundary now now' lightStart darkStart = Throw e.
Proof.
  intros Hfail.
  assert (Hl : isLightTime now lightStart darkStart = Throw e).
  { unfold isLightTime.
    destruct Hfail as [HL | [[L HL] HD]]; rewrite HL; [done|].
    simpl. by rewrite HD. }
  assert (Hn : forall c, getNextBoundary c lightStart darkStart = Throw e).
  { intros c. unfold getNextBoundary.
    destruct Hfail as [HL | [[L HL] HD]]; rewrite HL; [done|].
    simpl. by rewrite HD. }
  split_and!; [done | | done |].
  - unfold getThemeFromTime. by rewrite Hl.
  - unfold getMsUntilNextBoundary. by rewrite Hn.
Qed.

Lemma scheduler_rethrows_parse_error_witness :
  isLightTime (clockAt 600) (js "07:00") (js "22")
    = Throw (Error (InvalidTimeFormat (js "22")))
  /\ getThemeFromTime (clockAt 600) (js "07:00") (js "22")
     = Throw (Error (InvalidTimeFormat (js "22")))
  /\ getNextBoundary (clockAt 600) (js "07:00") (js "22")
     = Throw (Error (InvalidTimeFormat (js "22")))
  /\ getMsUntilNextBoundary (clockAt 600) (clockAt 601) (js "07:00") (js "22")
     = Throw (Error (InvalidTimeFormat (js "22"))).
Proof.
  apply (scheduler_rethrows_parse_error (clockAt 600) (clockAt 601)
           (js "07:00") (js "22")).
  right. split; [by exists 420 | reflexivity].
Defined.

(** X5: [isValidTimeConfig] is an exact guard for the scheduler: it
    answers [true] on two strings exactly when [getThemeFromTime] and
    [getMsUntilNextBoundary] complete normally on them at all clock
    readings, and [false] exactly when they throw at all clock
    readings. *)
Theorem isValidTimeConfig_guards_scheduler (lightStart darkStart : jsstring) :
  (isValidTimeConfig (JsStr lightStart) (JsStr darkStart) = true <->
   forall now now',
     (exists theme, getThemeFromTime now lightStart darkStart = Normal theme)
     /\ (exists ms,
           getMsUntilNextBoundary now now' lightStart darkStart = Normal ms))
  /\ (isValidTimeConfig (JsStr lightStart) (JsStr darkStart) = false <->
      forall now now',
        (exists e, getThemeFromTime now lightStart darkStart = Throw e)
        /\ (exists e,
              getMsUntilNextBoundary now now' lightStart darkStart = Throw e)).
Proof.
  assert (Hdich :
    (exists L D, timeToMinutes lightStart = Normal L
                 /\ timeToMinutes darkStart = Normal D)
    \/ (exists e, timeToMinutes lightStart = Throw e
                  \/ (exists L, timeToMinutes lightStart = Normal L)
                     /\ timeToMinutes darkStart = Throw e)).
  { destruct (timeToMinutes lightStart) as [L|e] eqn:HL; [|right; eauto].
    destruct (timeToMinutes darkStart) as [D|e] eqn:HD; [left|right]; eauto 7. }
  destruct Hdich as [(L & D & HL & HD) | (e & Hfail)].
  - assert (Hv : isValidTimeConfig (JsStr lightStart) (JsStr darkStart) = true).
    { apply isValidTimeConfig_true_iff. by exists lightStart, darkStart, L, D. }
    rewrite Hv. split; split; try done.
    + intros _ now now'. eauto using scheduler_calls_complete.
    + intros Hall.
      destruct (Hall (clockAt 0) (clockAt 0)) as [[e He] _].
      destruct (scheduler_calls_complete (clockAt 0) (clockAt 0) _ _ _ _ HL HD)
        as [[t Ht] _]. congruence.
  - assert (Hv : isValidTimeConfig (JsStr lightStart) (JsStr darkStart) = false).
    { destruct (isValidTimeConfig _ _) eqn:Hv; [|done].
      apply isValidTimeConfig_true_iff in Hv
        as (sa & sb & La & Lb & [= <-] & [= <-] & Ha & Hb).
      destruct Hfail as [? | [_ ?]]; congruence. }
    rewrite Hv. split; split; try done.
    + intros Hall. destruct (Hall (clockAt 0) (clockAt 0)) as [[t Ht] _].
      pose proof (scheduler_rethrows_parse_error_aux (clockAt 0) (clockAt 0)
                    _ _ _ Hfail) as (_ & Ht' & _). congruence.
    + intros _ now now'.
      pose proof (scheduler_rethrows_parse_error_aux now now' _ _ _ Hfail)
        as (_ & Ht & _ & Hm). eauto.
Qed.

End SchedulerExtras.

Section SchedulerTiming.
Local Open Scope Z_scope.

Lemma minute_of_day_wrap x :
  0 <= x < 2880 -> x mod 1440 = (if x <? 1440 then x else x - 1440).
Proof.
  intros Hx. destruct (Z.ltb_spec x 1440).
  - apply Z.mod_small. lia.
  - replace x with (x - 1440 + 1 * 1440) at 1 by lia.
    rewrite Z.mod_add by lia. apply Z.mod_small. lia.
Qed.

(** X6: the delay is exact when the minute does not change during the
    call.  For two different boundaries and two clock readings that show
    the same minute of the day, [getMsUntilNextBoundary] is a whole
    number [k] of minutes between 1 and 1439 such that the state stays
    what it is now during the next [k - 1] minutes and is the opposite
    one [k] minutes from now: the timer wakes at the next change of
    state, never before it and never after it. *)
Theorem delay_reaches_next_state_change (now now' : Date)
    (lightStart darkStart : jsstring) (L D : Z) :
  timeToMinutes lightStart = Normal L ->
  timeToMinutes darkStart = Normal D ->
  L <> D ->
  0 <= getCurrentMinutes now < 1440 ->
  getCurrentMinutes now' = getCurrentMinutes now ->
  exists k state,
    getMsUntilNextBoundary now now' lightStart darkStart = Normal (k * 60000)
    /\ 1 <= k <= 1439
    /\ isLightTime now lightStart darkStart = Normal state
    /\ (forall j, 0 <= j < k ->
          isLightTime (clockAt ((getCurrentMinutes now + j) mod 1440))
            lightStart darkStart = Normal state)
    /\ isLightTime (clockAt ((getCurrentMinutes now + k) mod 1440))
         lightStart darkStart = Normal (negb state).
Proof.
  intros HL HD Hne HC Hsame.
  destruct (boundaries_in_day _ _ _ _ HL HD) as [HLr HDr].
  pose proof (getNextBoundary_parsed _ _ _ _ HL HD now') as Hnb.
  cbv zeta in Hnb. rewrite Hsame in Hnb. set (C := getCurrentMinutes now) in *.
  rewrite ?Z.geb_leb in Hnb.
  assert (Hstate : forall m, 0 <= m < 2880 ->
    isLightTime (clockAt (m mod 1440)) lightStart darkStart
    = Normal (let c := if m <? 1440 then m else m - 1440 in
              if L <? D then (L <=? c) && (c <? D)
              else (L <=? c) || (c <? D))).
  { intros m Hm.
    rewrite (isLightTime_parsed _ _ _ _ HL HD), getCurrentMinutes_clockAt.
    rewrite minute_of_day_wrap by done. cbv zeta. by rewrite ?Z.geb_leb. }
  assert (Hnow : isLightTime now lightStart darkStart
    = Normal (if L <? D then (L <=? C) && (C <? D)
              else (L <=? C) || (C <? D))).
  { rewrite (isLightTime_parsed _ _ _ _ HL HD). cbv zeta. fold C.
    by rewrite ?Z.geb_leb. }
  assert (Hgoal : forall nb k,
    getNextBoundary now' lightStart darkStart = Normal nb ->
    k = (if nb - C <? 0 then nb - C + 1440 else nb - C) ->
    1 <= k <= 1439 ->
    (forall j, 0 <= j < k ->
       (let c := if C + j <? 1440 then C + j else C + j - 1440 in
        if L <? D then (L <=? c) && (c <? D) else (L <=? c) || (c <? D))
       = (if L <? D then (L <=? C) && (C <? D) else (L <=? C) || (C <? D))) ->
    (let c := if C + k <? 1440 then C + k else C + k - 1440 in
     if L <? D then (L <=? c) && (c <? D) else (L <=? c) || (c <? D))
    = negb (if L <? D then (L <=? C) && (C <? D) else (L <=? C) || (C <? D)) ->
    exists k state,
      getMsUntilNextBoundary now now' lightStart darkStart
      = Normal (k * 60000)
      /\ 1 <= k <= 1439
      /\ isLightTime now lightStart darkStart = Normal state
      /\ (forall j, 0 <= j < k ->
            isLightTime (clockAt ((C + j) mod 1440)) lightStart darkStart
            = Normal state)
      /\ isLightTime (clockAt ((C + k) mod 1440)) lightStart darkStart
         = Normal (negb state)).
  { intros nb k Hn Hkdef Hk Hbefore Hat.
    exists k, (if L <? D then (L <=? C) && (C <? D)
               else (L <=? C) || (C <? D)).
    split; [|split; [exact Hk|split; [exact Hnow|split]]].
    - rewrite (getMsUntilNextBoundary_parsed _ _ _ _ _ Hn). fold C.
      rewrite <- Hkdef. f_equal. lia.
    - intros j Hj. rewrite Hstate by lia. f_equal. by apply Hbefore.
    - rewrite Hstate by lia. by f_equal. }
  destruct (Z.ltb_spec L D);
    [ destruct (Z.ltb_spec C L); [|destruct (Z.ltb_spec C D)]
    | destruct (Z.leb_spec L C); [|destruct (Z.ltb_spec C D)] ];
    simpl in Hnb;
    (eapply Hgoal; [exact Hnb | reflexivity | compare_cases
                   | intros j Hj; cbv zeta; revert Hj; compare_cases
                   | cbv zeta; compare_cases]).
Qed.

Lemma delay_reaches_next_state_change_witness :
  exists k state,
    getMsUntilNextBoundary (clockAt 1400) (clockAt 1400) (js "22:00")
      (js "07:00") = Normal (k * 60000)
    /\ 1 <= k <= 1439
    /\ isLightTime (clockAt 1400) (js "22:00") (js "07:00") = Normal state
    /\ (forall j, 0 <= j < k ->
          isLightTime (clockAt ((getCurrentMinutes (clockAt 1400) + j) mod 1440))
            (js "22:00") (js "07:00") = Normal state)
    /\ isLightTime (clockAt ((getCurrentMinutes (clockAt 1400) + k) mod 1440))
         (js "22:00") (js "07:00") = Normal (negb state).
Proof.
  apply (delay_reaches_next_state_change (clockAt 1400) (clockAt 1400)
           (js "22:00") (js "07:00") 1320 420);
    [reflexivity | reflexivity | lia | | reflexivity].
  rewrite getCurrentMinutes_clockAt. lia.
Defined.

(** X7: the two boundaries cut the day into two complementary parts.
    With different boundaries, exchanging [lightStart] and [darkStart]
    turns every light minute into a dark one and every dark minute into a
    light one. *)
Theorem swapped_boundaries_swap_states (now : Date)
    (lightStart darkStart : jsstring) (L D : Z) :
  timeToMinutes lightStart = Normal L ->
  timeToMinutes darkStart = Normal D ->
  L <> D ->
  exists state,
    isLightTime now lightStart darkStart = Normal state
    /\ isLightTime now darkStart lightStart = Normal (negb state).
Proof.
  intros HL HD Hne.
  rewrite (isLightTime_parsed _ _ _ _ HL HD).
  rewrite (isLightTime_parsed _ _ _ _ HD HL).
  cbv zeta. eexists. split; [reflexivity|]. f_equal. compare_cases.
Qed.

Lemma swapped_boundaries_swap_states_witness :
  exists state,
    isLightTime (clockAt 30) (js "07:00") (js "22:00") = Normal state
    /\ isLightTime (clockAt 30) (js "22:00") (js "07:00") = Normal (negb state).
Proof.
  apply (swapped_boundaries_swap_states (clockAt 30) (js "07:00") (js "22:00")
           420 1320); [reflexivity | reflexivity | lia].
Defined.

End SchedulerTiming.

(** ** The storage shim on a store that keeps the Web Storage contract *)

Section StorageOnContract.
Context {S : Type} `{WebStorage S}.
Variable view : S -> gmap jsstring jsstring.
Hypothesis contract : Contract view.

Lemma probe_contents h h1 :
  isStorageAvailable h = (Normal true, h1) ->
  contents view h1 = delete testKey (contents view h).
Proof using contract.
  unfold isStorageAvailable.
  rewrite (bindM_normal _ _ h
             (match window h with None => true | Some _ => false end) h)
    by done.
  destruct (window h) as [s|] eqn:Hw; [|done].
  unfold tryCatch, bindM, retM.
  destruct (localStorage_setItem testKey testKey h) as [[u|e] h2] eqn:Hset;
    [|done].
  destruct (localStorage_removeItem testKey h2) as [[u'|e] h3] eqn:Hrem;
    [|done].
  intros [= <-].
  rewrite (localStorage_removeItem_contents view contract _ _ _ _ Hrem).
  rewrite (localStorage_setItem_contents view contract _ _ _ _ _ Hset).
  apply delete_insert_eq.
Qed.

Lemma storeMode_contents mode key h h1 :
  storeMode mode key h = (Normal true, h1) ->
  contents view h1 = <[key := mode]> (delete testKey (contents view h)).
Proof using contract.
  destruct (isStorageAvailable_total h) as (b & h0 & Hp & _).
  rewrite (storeMode_unfold mode key h b h0 Hp).
  destruct b; [|done].
  destruct (localStorage_setItem key mode h0) as [[u|e] h2] eqn:Hset; [|done].
  intros [= <-].
  rewrite (localStorage_setItem_contents view contract _ _ _ _ _ Hset).
  by rewrite (probe_contents _ _ Hp).
Qed.

Lemma clearStoredMode_contents key h h1 :
  clearStoredMode key h = (Normal true, h1) ->
  contents view h1 = delete key (delete testKey (contents view h)).
Proof using contract.
  destruct (isStorageAvailable_total h) as (b & h0 & Hp & _).
  rewrite (clearStoredMode_unfold key h b h0 Hp).
  destruct b; [|done].
  destruct (localStorage_removeItem key h0) as [[u|e] h2] eqn:Hrem; [|done].
  intros [= <-].
  rewrite (localStorage_removeItem_contents view contract _ _ _ _ Hrem).
  by rewrite (probe_contents _ _ Hp).
Qed.

(** What [getStoredMode] returns, from the entries of the host: a read
    never yields anything but the entry under the key, and only when it
    is a mode and the key is not the probe's. *)
Lemma getStoredMode_contents key h :
  exists r h', getStoredMode key h = (Normal r, h')
    /\ (r = None
        \/ key <> testKey /\ r = contents view h !! key
           /\ exists m, r = Some m /\ isMode m).
Proof using contract.
  destruct (isStorageAvailable_total h) as (b & h0 & Hp & _).
  rewrite (getStoredMode_unfold key h b h0 Hp).
  destruct b; [|eauto].
  destruct (localStorage_getItem key h0) as [[stored|e] h2] eqn:Hget; [|eauto].
  destruct (localStorage_getItem_contents view contract _ _ _ _ Hget) as [Hr _].
  rewrite (probe_contents _ _ Hp) in Hr.
  destruct (strictEq stored MODE_AUTO || strictEq stored MODE_LIGHT
            || strictEq stored MODE_DARK) eqn:Ht; [|eauto].
  apply mode_test_true_iff in Ht as (m & -> & Hm).
  do 2 eexists. split; [reflexivity|]. right.
  destruct (decide (key = testKey)) as [->|Hne].
  - by rewrite lookup_delete_eq in Hr.
  - rewrite lookup_delete_ne in Hr by done. eauto.
Qed.

(** A read whose probe passes and whose [getItem] returns. *)
Lemma getStoredMode_reads key h h1 r h2 :
  isStorageAvailable h = (Normal true, h1) ->
  localStorage_getItem key h1 = (Normal r, h2) ->
  key <> testKey ->
  getStoredMode key h
  = (Normal (match contents view h !! key with
             | Some m => if decide (isMode m) then Some m else None
             | None => None
             end), h2).
Proof using contract.
  intros Hp Hget Hne.
  rewrite (getStoredMode_unfold key h true h1 Hp), Hget.
  destruct (localStorage_getItem_contents view contract _ _ _ _ Hget) as [-> _].
  rewrite (probe_contents _ _ Hp), lookup_delete_ne by done.
  pose proof (mode_test_true_iff (contents view h !! key)) as Ht.
  destruct (contents view h !! key) as [m|] eqn:Hm.
  - destruct (decide (isMode m)) as [Hmode|Hmode].
    + by rewrite (proj2 Ht) by eauto.
    + destruct (strictEq (Some m) MODE_AUTO || strictEq (Some m) MODE_LIGHT
                || strictEq (Some m) MODE_DARK); [|done].
      exfalso. destruct (proj1 Ht eq_refl) as (m' & [= <-] & ?). auto.
  - done.
Qed.

End StorageOnContract.

Section StorageExtras.
Context {S : Type} `{WebStorage S}.

(** X8: the availability probe has a side effect.  When it answers
    [true] it has removed whatever was stored under "__storage_test__",
    and every other entry of the store is as it was. *)
Theorem probe_clears_only_test_key (view : S -> gmap jsstring jsstring)
    (h h1 : Host S) :
  Contract view ->
  isStorageAvailable h = (Normal true, h1) ->
  contents view h1 !! testKey = None
  /\ forall k, k <> testKey -> contents view h1 !! k = contents view h !! k.
Proof.
  intros Hc Hp. rewrite (probe_contents view Hc _ _ Hp). split.
  - apply lookup_delete_eq.
  - intros k Hk. by apply lookup_delete_ne.
Qed.

(** X9: a mode kept under the key "__storage_test__" is never read
    back: every read probes the store first, and the probe removes that
    key (or fails), so [getStoredMode] returns [null] on every host. *)
Theorem getStoredMode_of_test_key (view : S -> gmap jsstring jsstring)
    (h : Host S) :
  Contract view ->
  exists h', getStoredMode testKey h = (Normal None, h').
Proof.
  intros Hc.
  destruct (getStoredMode_contents view Hc testKey h)
    as (r & h' & Hr & [-> | [Hne _]]); [eauto | done].
Qed.

(** X10: write then read.  After a [storeMode] that returned [true],
    under a key other than the probe's, a read whose store accesses
    complete returns the stored string when it is one of "auto", "light",
    "dark", and [null] when it is anything else. *)
Theorem storeMode_then_getStoredMode (view : S -> gmap jsstring jsstring)
    (h h1 h2 h3 : Host S) (mode key : jsstring) (r : option jsstring) :
  Contract view ->
  key <> testKey ->
  storeMode mode key h = (Normal true, h1) ->
  isStorageAvailable h1 = (Normal true, h2) ->
  localStorage_getItem key h2 = (Normal r, h3) ->
  getStoredMode key h1
  = (Normal (if decide (isMode mode) then Some mode else None), h3).
Proof.
  intros Hc Hne Hstore Hp Hget.
  rewrite (getStoredMode_reads view Hc key h1 h2 r h3 Hp Hget Hne).
  by rewrite (storeMode_contents view Hc _ _ _ _ Hstore), lookup_insert_eq.
Qed.

Lemma clearStoredMode_then_getStoredMode_aux
    (view : S -> gmap jsstring jsstring) (Hc : Contract view)
    (h h1 : Host S) (key : jsstring) :
  clearStoredMode key h = (Normal true, h1) ->
  exists h2, getStoredMode key h1 = (Normal None, h2).
Proof.
  intros Hclear.
  destruct (getStoredMode_contents view Hc key h1)
    as (r & h2 & Hr & Hcase).
  assert (r = None) as ->; [|eauto].
  destruct Hcase as [-> | (_ & Hlook & m & -> & _)]; [done|].
  rewrite (clearStoredMode_contents view Hc _ _ _ Hclear) in Hlook.
  by rewrite lookup_delete_eq in Hlook.
Qed.

(** X11: clear then read.  After a [clearStoredMode] that returned
    [true], [getStoredMode] returns [null] and
    [getStoredModeWithFallback] returns the default, whatever the store
    does from then on. *)
Theorem clearStoredMode_then_getStoredMode
    (view : S -> gmap jsstring jsstring) (h h1 : Host S)
    (key defaultMode : jsstring) :
  Contract view ->
  clearStoredMode key h = (Normal true, h1) ->
  exists h2,
    getStoredMode key h1 = (Normal None, h2)
    /\ getStoredModeWithFallback key defaultMode h1 = (Normal defaultMode, h2).
Proof.
  intros Hc Hclear.
  destruct (getStoredMode_contents view Hc key h1)
    as (r & h2 & Hr & Hcase).
  assert (r = None) as ->.
  { destruct Hcase as [-> | (_ & Hlook & m & -> & _)]; [done|].
    rewrite (clearStoredMode_contents view Hc _ _ _ Hclear) in Hlook.
    by rewrite lookup_delete_eq in Hlook. }
  exists h2. split; [done|].
  unfold getStoredModeWithFallback. by rewrite (bindM_normal _ _ _ _ _ Hr).
Qed.

(** X12: a successful write or removal changes one entry.  After
    [storeMode] returned [true] the store holds the mode under the key,
    nothing under the probe key unless that is the key, and every other
    entry as before; after [clearStoredMode] returned [true] it holds
    nothing under the key and the probe key, and every other entry as
    before. *)
Theorem persisting_changes_one_entry (view : S -> gmap jsstring jsstring)
    (h h1 : Host S) (mode key : jsstring) :
  Contract view ->
  (storeMode mode key h = (Normal true, h1) ->
     contents view h1 = <[key := mode]> (delete testKey (contents view h)))
  /\ (clearStoredMode key h = (Normal true, h1) ->
     contents view h1 = delete key (delete testKey (contents view h))).
Proof.
  intros Hc. split.
  - apply (storeMode_contents view Hc).
  - apply (clearStoredMode_contents view Hc).
Qed.

End StorageExtras.

Section StorageExtrasWitnesses.

Lemma probe_clears_only_test_key_witness :
  contents items (browser [(js "auto-theme-mode", js "dark")] 100 false)
    !! testKey = None
  /\ forall k, k <> testKey ->
       contents items (browser [(js "auto-theme-mode", js "dark")] 100 false)
         !! k
       = contents items
           (browser [(testKey, js "x"); (js "auto-theme-mode", js "dark")]
              100 false) !! k.
Proof.
  apply (probe_clears_only_test_key items
           (browser [(testKey, js "x"); (js "auto-theme-mode", js "dark")]
              100 false)
           (browser [(js "auto-theme-mode", js "dark")] 100 false)).
  - exact browser_storage_contract.
  - by vm_compute.
Defined.

Lemma getStoredMode_of_test_key_witness :
  exists h',
    getStoredMode testKey (browser [(testKey, js "dark")] 100 false)
    = (Normal None, h').
Proof.
  apply (getStoredMode_of_test_key items
           (browser [(testKey, js "dark")] 100 false)).
  exact browser_storage_contract.
Defined.

Lemma storeMode_then_getStoredMode_witness :
  getStoredMode (js "auto-theme-mode")
    (browser [(js "auto-theme-mode", js "dark")] 100 false)
  = (Normal (if decide (isMode (js "dark")) then Some (js "dark") else None),
     browser [(js "auto-theme-mode", js "dark")] 100 false).
Proof.
  apply (storeMode_then_getStoredMode items
           (browser [] 100 false)
           (browser [(js "auto-theme-mode", js "dark")] 100 false)
           (browser [(js "auto-theme-mode", js "dark")] 100 false)
           (browser [(js "auto-theme-mode", js "dark")] 100 false)
           (js "dark") (js "auto-theme-mode") (Some (js "dark"))).
  - exact browser_storage_contract.
  - discriminate.
  - by vm_compute.
  - by vm_compute.
  - by vm_compute.
Defined.

Lemma clearStoredMode_then_getStoredMode_witness :
  exists h2,
    getStoredMode (js "auto-theme-mode") (browser [] 100 false)
    = (Normal None, h2)
    /\ getStoredModeWithFallback (js "auto-theme-mode") (js "auto")
         (browser [] 100 false)
       = (Normal (js "auto"), h2).
Proof.
  apply (clearStoredMode_then_getStoredMode items
           (browser [(js "auto-theme-mode", js "dark")] 100 false)
           (browser [] 100 false) (js "auto-theme-mode") (js "auto")).
  - exact browser_storage_contract.
  - by vm_compute.
Defined.

Lemma persisting_changes_one_entry_witness :
  contents items (browser [(js "k", js "v"); (js "auto-theme-mode", js "light")]
                    100 false)
  = <[js "auto-theme-mode" := js "light"]>
      (delete testKey (contents items (browser [(js "k", js "v")] 100 false))).
Proof.
  apply (persisting_changes_one_entry items
           (browser [(js "k", js "v")] 100 false)
           (browser [(js "k", js "v"); (js "auto-theme-mode", js "light")]
              100 false)
           (js "light") (js "auto-theme-mode")).
  - exact browser_storage_contract.
  - by vm_compute.
Defined.

End StorageExtrasWitnesses.

(** ** The document *)

Section DomExtras.

Lemma target_applyThemeToDom theme applyTo document :
  target applyTo (applyThemeToDom theme applyTo document)
  = setAttribute DATA_THEME (themeName theme) <$> target applyTo document.
Proof.
  unfold target, applyThemeToDom.
  destruct document as [doc|]; [|done].
  destruct (valEq applyTo (js "html")) eqn:Ha.
  - destruct (documentElement doc) eqn:Hd; simpl; by rewrite ?Ha, ?Hd.
  - destruct (body doc) eqn:Hb; simpl; by rewrite ?Ha, ?Hb.
Qed.

Lemma shownTheme_applyThemeToDom theme applyTo document :
  shownTheme applyTo (applyThemeToDom theme applyTo document)
  = match target applyTo document with
    | Some _ => Some (themeName theme)
    | None => None
    end.
Proof.
  unfold shownTheme. rewrite target_applyThemeToDom.
  destruct (target applyTo document) as [el|]; [|done]. simpl.
  apply lookup_insert_eq.
Qed.



End DomExtras.

(** ** The provider's configuration at run time *)

Section RuntimeConfig.
Local Open Scope Z_scope.

(** What the merged configuration holds as boundaries. *)
Lemma mergedConfig_boundaries config :
  exists ls ds L D,
    lightStart (mergedConfig config) = JsStr ls
    /\ darkStart (mergedConfig config) = JsStr ds
    /\ timeToMinutes ls = Normal L /\ timeToMinutes ds = Normal D.
Proof.
  unfold mergedConfig.
  set (configured := spread DEFAULT_CONFIG (default emptyConfig config)).
  destruct (isValidTimeConfig (lightStart configured) (darkStart configured))
    eqn:Hvalid; simpl.
  - by apply isValidTimeConfig_true_iff.
  - destruct defaults_parse as [HL HD].
    by exists DEFAULT_LIGHT_START, DEFAULT_DARK_START, 420, 1320.
Qed.

Lemma getThemeFromTime_parsed now ls ds L D :
  timeToMinutes ls = Normal L -> timeToMinutes ds = Normal D ->
  getThemeFromTime now ls ds
  = Normal (if (let C := getCurrentMinutes now in
                if L <? D then (C >=? L) && (C <? D)
                else (C >=? L) || (C <? D))
            then light else dark).
Proof.
  intros HL HD. unfold getThemeFromTime.
  by rewrite (isLightTime_parsed _ _ _ _ HL HD).
Qed.

End RuntimeConfig.

(** ** The provider on a configuration whose boundaries parse *)

Lemma theme_eqb_refl_iff a b : theme_eqb a b = true <-> a = b.
Proof. by destruct a, b. Qed.

Lemma valEq_true v lit : valEq v lit = true <-> v = JsStr lit.
Proof.
  destruct v as [|s]; simpl; [done|].
  rewrite bool_decide_eq_true. split; congruence.
Qed.

Lemma applyThemeToDom_some t applyTo document :
  document <> None -> applyThemeToDom t applyTo document <> None.
Proof.
  destruct document as [doc|]; [intros _|done].
  unfold applyThemeToDom. by repeat case_match.
Qed.

(** *** What each piece of the provider does to the world *)

Section RuntimeEffects.
Local Open Scope Z_scope.
Context {S : Type} `{WebStorage S}.
Variable config : ThemeConfig.

Lemma scheduleNextCheck_shape now now' modeSeen (w w' : World S) :
  scheduleNextCheck config now now' modeSeen w = Normal w' ->
  exists d, w' = withTimer d w
            /\ (d = None <-> valEq modeSeen (js "auto") = false).
Proof.
  unfold scheduleNextCheck.
  destruct (valEq modeSeen (js "auto")); simpl.
  - destruct (getMsUntilNextBoundaryVal _ _ _ _); simpl; [|done].
    intros [= <-]. eexists. split; [reflexivity|]. by split.
  - intros [= <-]. by exists None.
Qed.

Lemma runEffects_fields clock (w w' : World S) :
  runEffects config clock w = Normal w' ->
  w_host w' = w_host w /\ w_document w' = w_document w
  /\ w_state w' = w_state w /\ w_seen w' = w_seen w
  /\ w_notified w' = w_notified w
  /\ w_listening w' = true /\ w_document w <> None
  /\ (w_timer w' = None <-> valEq (mode (w_seen w)) (js "auto") = false).
Proof.
  unfold runEffects.
  destruct (scheduleNextCheck config (clock 0%nat) (clock 1%nat)
              (mode (w_seen w)) w) as [w1|] eqn:H1; [|done].
  destruct (scheduleNextCheck_shape _ _ _ _ _ H1) as (d1 & -> & Hd1).
  cbn [mbind completion_bind bindC]. unfold addEventListener.
  cbn [withTimer w_document].
  destruct (w_document w) as [doc|] eqn:Hdoc; [|done].
  cbn [mbind completion_bind bindC].
  destruct (valEq (mode (w_seen w)) (js "auto")) eqn:Hauto.
  - intros H2.
    destruct (scheduleNextCheck_shape _ _ _ _ _ H2) as (d2 & -> & Hd2).
    rewrite Hauto in Hd2. simpl. by rewrite Hdoc.
  - intros [= <-]. simpl. by rewrite Hdoc.
Qed.

Lemma afterRender_fields clock (w w' : World S) :
  afterRender config clock w = Normal w' ->
  w_host w' = w_host w /\ w_document w' = w_document w
  /\ w_state w' = w_state w /\ w_seen w' = w_state w
  /\ w_notified w' = w_notified w
  /\ w_listening w' = true /\ w_document w <> None
  /\ (w_timer w' = None <-> valEq (mode (w_state w)) (js "auto") = false).
Proof.
  unfold afterRender, cleanup, removeEventListener.
  cbn [withTimer w_document].
  destruct (w_document w) as [doc|] eqn:Hdoc; [|done].
  cbn [mbind completion_bind bindC]. intros Hrun.
  apply runEffects_fields in Hrun. simpl in Hrun.
  by rewrite Hdoc in Hrun.
Qed.

Lemma setMode_fields now newMode (w w' : World S) :
  setMode config now newMode w = Normal w' ->
  exists t,
    calculateTheme (JsStr newMode) config now = Normal t
    /\ w_state w' = {| mode := JsStr newMode; theme := t |}
    /\ w_document w' = applyThemeToDom t (applyTo config) (w_document w)
    /\ w_notified w' = w_notified w ++ [(t, JsStr newMode)]
    /\ w_timer w' = w_timer w /\ w_seen w' = w_seen w
    /\ w_listening w' = w_listening w.
Proof.
  unfold setMode.
  destruct (calculateTheme (JsStr newMode) config now) as [t|]; [|done].
  simpl.
  match goal with |- context [?persist (w_host w)] =>
    destruct (persist (w_host w)) as [[b|e] h'] end; [|done].
  intros [= <-]. by exists t.
Qed.

(** The shared part of the two updaters: either nothing changes or the
    new theme is put in the state, written to the document and passed to
    [onThemeChange] with the mode "auto". *)
Lemma showAutoTheme_fields t (w : World S) :
  let w' := showAutoTheme config t w in
  (w' = w
   \/ w_state w' = {| mode := mode (w_state w); theme := t |}
      /\ w_document w' = applyThemeToDom t (applyTo config) (w_document w)
      /\ w_notified w' = w_notified w ++ [(t, JsStr (js "auto"))])
  /\ w_timer w' = w_timer w /\ w_seen w' = w_seen w
  /\ w_listening w' = w_listening w /\ w_host w' = w_host w.
Proof.
  unfold showAutoTheme. destruct (theme_eqb _ _); simpl; auto 10.
Qed.

Lemma onTimeout_fields clock (w w' : World S) :
  onTimeout config clock w = Normal w' ->
  exists t d,
    w' = withTimer (Some d)
           (if negb (valEq (mode (w_state w)) (js "auto")) then w
            else showAutoTheme config t w).
Proof.
  unfold onTimeout.
  destruct (getThemeFromTimeVal _ _ _) as [t|]; [|done].
  cbn [mbind completion_bind bindC]. intros Hs.
  destruct (scheduleNextCheck_shape _ _ _ _ _ Hs) as (d & -> & Hd).
  destruct d as [d|]; [by exists t, d|].
  exfalso. pose proof (proj1 Hd eq_refl) as Hf. by vm_compute in Hf.
Qed.

Lemma run_preserves (P : World S -> Prop) :
  (forall clock ev w w', P w -> step config clock ev w = Normal w' -> P w') ->
  forall events w w', P w -> run config events w = Normal w' -> P w'.
Proof.
  intros Hstep events.
  induction events as [|[clock ev] events IH]; intros w w' HP; simpl.
  - by intros [= <-].
  - destruct (step config clock ev w) as [w1|] eqn:Hs; [|done]. simpl.
    eauto.
Qed.

End RuntimeEffects.

Section RuntimeOnParsed.
Local Open Scope Z_scope.
Context {S : Type} `{WebStorage S}.
Variables (config : ThemeConfig) (ls ds : jsstring) (L D : Z).
Hypothesis config_light : lightStart config = JsStr ls.
Hypothesis config_dark : darkStart config = JsStr ds.
Hypothesis parse_light : timeToMinutes ls = Normal L.
Hypothesis parse_dark : timeToMinutes ds = Normal D.

Lemma getThemeFromTimeVal_total now :
  exists t, getThemeFromTimeVal now (lightStart config) (darkStart config)
            = Normal t.
Proof using config_light config_dark parse_light parse_dark.
  rewrite config_light, config_dark. simpl.
  rewrite (getThemeFromTime_parsed _ _ _ _ _ parse_light parse_dark). eauto.
Qed.

Lemma getMsUntilNextBoundaryVal_total now now' :
  exists ms,
    getMsUntilNextBoundaryVal now now' (lightStart config) (darkStart config)
    = Normal ms.
Proof using config_light config_dark parse_light parse_dark.
  rewrite config_light, config_dark. simpl.
  destruct (scheduler_calls_complete now now' _ _ _ _ parse_light parse_dark)
    as [_ ?]. done.
Qed.

Lemma calculateTheme_total mode now :
  exists t, calculateTheme mode config now = Normal t.
Proof using config_light config_dark parse_light parse_dark.
  unfold calculateTheme.
  destruct (valEq mode (js "light")); [eauto|].
  destruct (valEq mode (js "dark")); [eauto|].
  apply getThemeFromTimeVal_total.
Qed.

Lemma scheduleNextCheck_total now now' modeSeen (w : World S) :
  exists w', scheduleNextCheck config now now' modeSeen w = Normal w'.
Proof using config_light config_dark parse_light parse_dark.
  unfold scheduleNextCheck.
  destruct (negb (valEq modeSeen (js "auto"))); [eauto|].
  destruct (getMsUntilNextBoundaryVal_total now now') as [ms ->]. simpl. eauto.
Qed.

Lemma getStoredMode_total key (h : Host S) :
  exists r h', getStoredMode key h = (Normal r, h').
Proof.
  destruct (isStorageAvailable_total h) as (b & h1 & Hp & _).
  rewrite (getStoredMode_unfold key h b h1 Hp). destruct b; [|eauto].
  destruct (localStorage_getItem key h1) as [[?|?] ?]; eauto.
Qed.

Lemma storeMode_total mode key (h : Host S) :
  exists b h', storeMode mode key h = (Normal b, h').
Proof.
  destruct (isStorageAvailable_total h) as (b & h1 & Hp & _).
  rewrite (storeMode_unfold mode key h b h1 Hp). destruct b; [|eauto].
  destruct (localStorage_setItem key mode h1) as [[?|?] ?]; eauto.
Qed.

Lemma clearStoredMode_total key (h : Host S) :
  exists b h', clearStoredMode key h = (Normal b, h').
Proof.
  destruct (isStorageAvailable_total h) as (b & h1 & Hp & _).
  rewrite (clearStoredMode_unfold key h b h1 Hp). destruct b; [|eauto].
  destruct (localStorage_removeItem key h1) as [[?|?] ?]; eauto.
Qed.

Lemma setMode_total now newMode (w : World S) :
  exists w', setMode config now newMode w = Normal w'.
Proof using config_light config_dark parse_light parse_dark.
  unfold setMode.
  destruct (calculateTheme_total (JsStr newMode) now) as [t ->]. simpl.
  destruct (bool_decide (newMode = js "auto")).
  - destruct (clearStoredMode_total (toDOMString (storageKey config)) (w_host w))
      as (b & h' & ->). eauto.
  - destruct (storeMode_total newMode (toDOMString (storageKey config))
                (w_host w)) as (b & h' & ->). eauto.
Qed.

Lemma runEffects_total clock (w : World S) :
  w_document w <> None -> exists w', runEffects config clock w = Normal w'.
Proof using config_light config_dark parse_light parse_dark.
  intros Hdoc. unfold runEffects.
  destruct (scheduleNextCheck_total (clock 0%nat) (clock 1%nat)
              (mode (w_seen w)) w) as [w1 H1].
  rewrite H1.
  destruct (scheduleNextCheck_shape _ _ _ _ _ _ H1) as (d1 & -> & _).
  cbn [mbind completion_bind bindC]. unfold addEventListener.
  cbn [withTimer w_document].
  destruct (w_document w) as [doc|]; [|done].
  cbn [mbind completion_bind bindC].
  destruct (valEq (mode (w_seen w)) (js "auto")); [|eauto].
  apply scheduleNextCheck_total.
Qed.

Lemma afterRender_total clock (w : World S) :
  w_document w <> None -> exists w', afterRender config clock w = Normal w'.
Proof using config_light config_dark parse_light parse_dark.
  intros Hdoc. unfold afterRender, cleanup, removeEventListener.
  cbn [withTimer w_document].
  destruct (w_document w) as [doc|] eqn:Hd; [|done].
  cbn [mbind completion_bind bindC].
  apply runEffects_total. simpl. by rewrite Hd.
Qed.

Lemma step_total clock ev (w : World S) :
  w_document w <> None -> exists w', step config clock ev w = Normal w'.
Proof using config_light config_dark parse_light parse_dark.
  intros Hdoc. destruct ev as [newMode| | |visible|]; simpl.
  - apply setMode_total.
  - apply setMode_total.
  - destruct (w_timer w); [|eauto].
    unfold onTimeout.
    destruct (getThemeFromTimeVal_total (clock 0%nat)) as [t ->].
    cbn [mbind completion_bind bindC]. apply scheduleNextCheck_total.
  - destruct (w_listening w); [|eauto].
    unfold handleVisibilityChange.
    destruct (w_document w) as [doc|]; [|done].
    destruct (visible && valEq (mode (w_seen w)) (js "auto")); [|eauto].
    destruct (getThemeFromTimeVal_total (clock 0%nat)) as [t ->]. simpl. eauto.
  - by apply afterRender_total.
Qed.

Lemma initialState_total now (h : Host S) :
  exists st h', initialState config now h = (Normal st, h').
Proof using config_light config_dark parse_light parse_dark.
  unfold initialState, storedModeOrDefault.
  destruct (getStoredMode_total (toDOMString (storageKey config)) h)
    as (r & h' & Hr).
  rewrite (bindM_normal _ _ _ _ _ Hr). unfold retM.
  match goal with |- context [calculateTheme ?m config now] =>
    destruct (calculateTheme_total m now) as [t ->] end. simpl. eauto.
Qed.

Lemma mount_total clock (h : Host S) doc :
  exists w, mount config clock h (Some doc) = Normal w.
Proof using config_light config_dark parse_light parse_dark.
  unfold mount.
  destruct (initialState_total (clock 0%nat) h) as (st & h' & ->).
  apply runEffects_total. cbn [w_document]. by apply applyThemeToDom_some.
Qed.

(** Without a document the second effect fails: its
    [addEventListener] is not guarded. *)
Lemma mount_no_document clock (h : Host S) :
  mount config clock h None = Throw ReferenceError.
Proof using config_light config_dark parse_light parse_dark.
  unfold mount.
  destruct (initialState_total (clock 0%nat) h) as (st & h' & ->).
  unfold runEffects.
  match goal with |- context [scheduleNextCheck ?c ?n ?n' ?m ?x] =>
    destruct (scheduleNextCheck_total n n' m x) as [w1 H1];
    rewrite H1;
    destruct (scheduleNextCheck_shape _ _ _ _ _ _ H1) as (d1 & -> & _)
  end.
  done.
Qed.

End RuntimeOnParsed.

(** ** Invariants of the mounted provider *)

Section RuntimeInvariants.
Context {S : Type} `{WebStorage S}.
Variable config : ThemeConfig.

Lemma calculateTheme_manual m now t :
  calculateTheme m config now = Normal t ->
  (m = JsStr (js "light") -> t = light) /\ (m = JsStr (js "dark") -> t = dark).
Proof.
  unfold calculateTheme. split; intros ->; simpl in *; congruence.
Qed.

(** A change of the theme that goes to the state and to the document
    together keeps the document in step. *)
Lemma steady_update (w w' : World S) m t :
  steady config w ->
  w_state w' = {| mode := m; theme := t |} ->
  w_document w' = applyThemeToDom t (applyTo config) (w_document w) ->
  w_seen w' = w_seen w -> w_timer w' = w_timer w ->
  w_listening w' = w_listening w ->
  steady config w'.
Proof.
  intros (Hdoc & Hlisten & Hshow & Htimer) Hst Hd Hseen Ht Hl.
  unfold steady. rewrite Hst, Hd, Hseen, Ht, Hl. split_and!; try done.
  - by apply applyThemeToDom_some.
  - rewrite shownTheme_applyThemeToDom, target_applyThemeToDom. simpl.
    by destruct (target (applyTo config) (w_document w)).
Qed.

Lemma steady_showAutoTheme t (w : World S) :
  steady config w -> steady config (showAutoTheme config t w).
Proof.
  intros Hw.
  destruct (showAutoTheme_fields config t w)
    as ([-> | (Hst & Hd & _)] & Ht & Hseen & Hl & _); [done|].
  by eapply steady_update.
Qed.

Lemma settled_showAutoTheme p t (w : World S) :
  settled p w -> valEq (mode (w_state w)) (js "auto") = true ->
  settled p (showAutoTheme config t w).
Proof.
  intros (Hsame & Hpin & Hlast) Hauto%valEq_true.
  destruct (showAutoTheme_fields config t w)
    as ([-> | (Hst & _ & Hn)] & _ & Hseen & _); [done|].
  unfold settled. rewrite Hst, Hn, Hseen, Hauto. simpl. split_and!.
  - intros Hp. rewrite <- Hauto. auto.
  - done.
  - done.
  - right. by rewrite last_snoc.
Qed.

Lemma mount_steady clock (h : Host S) document w0 :
  mount config clock h document = Normal w0 ->
  steady config w0 /\ settled false w0.
Proof.
  unfold mount, initialState, storedModeOrDefault, bindM, retM.
  destruct (getStoredMode _ h) as [[r|e] h']; [|done].
  destruct (calculateTheme _ config _) as [t|] eqn:Hc; [|done]. simpl.
  intros Hs. apply runEffects_fields in Hs. simpl in Hs.
  destruct Hs as (_ & Hd & Hst & Hseen & Hn & Hl & Hdoc & Ht).
  unfold steady, settled. rewrite Hd, Hst, Hseen, Hn. simpl. split_and!.
  - done.
  - done.
  - rewrite shownTheme_applyThemeToDom, target_applyThemeToDom.
    by destruct (target (applyTo config) document).
  - done.
  - done.
  - intros Hm. by apply (calculateTheme_manual _ _ _ Hc).
  - intros Hm. by apply (calculateTheme_manual _ _ _ Hc).
  - by left.
Qed.

Lemma step_steady clock ev (w w' : World S) :
  steady config w -> step config clock ev w = Normal w' -> steady config w'.
Proof.
  intros Hw. pose proof Hw as (Hdoc & Hlisten & Hshow & Htimer).
  destruct ev as [newMode| | |visible|]; simpl.
  - intros Hset.
    destruct (setMode_fields _ _ _ _ _ Hset) as (t & _ & ? & ? & _ & ? & ? & ?).
    by eapply steady_update.
  - intros Hset.
    destruct (setMode_fields _ _ _ _ _ Hset) as (t & _ & ? & ? & _ & ? & ? & ?).
    by eapply steady_update.
  - destruct (w_timer w) as [d0|] eqn:Hd0; [|by intros [= <-]].
    intros Hout. destruct (onTimeout_fields _ _ _ _ Hout) as (t & d & ->).
    assert (Hw0 : steady config
                    (if negb (valEq (mode (w_state w)) (js "auto")) then w
                     else showAutoTheme config t w)).
    { destruct (negb _); [done|]. by apply steady_showAutoTheme. }
    assert (Hseen : w_seen (if negb (valEq (mode (w_state w)) (js "auto"))
                            then w else showAutoTheme config t w) = w_seen w).
    { destruct (negb _); [done|]. apply showAutoTheme_fields. }
    destruct Hw0 as (? & ? & ? & _). unfold steady. simpl.
    split_and!; try done. rewrite Hseen.
    destruct (valEq (mode (w_seen w)) (js "auto")); [done|].
    by pose proof (proj2 Htimer eq_refl).
  - rewrite Hlisten. unfold handleVisibilityChange.
    destruct (w_document w) as [doc|]; [|done].
    destruct (visible && valEq (mode (w_seen w)) (js "auto"));
      [|by intros [= <-]].
    destruct (getThemeFromTimeVal _ _ _) as [t|]; [|done]. simpl.
    intros [= <-]. by apply steady_showAutoTheme.
  - intros Hr.
    destruct (afterRender_fields _ _ _ _ Hr)
      as (_ & Hd & Hst & Hseen & _ & Hl & _ & Ht).
    unfold steady. by rewrite Hd, Hst, Hseen, Hl.
Qed.

Lemma run_steady events (w w' : World S) :
  steady config w -> run config events w = Normal w' -> steady config w'.
Proof. apply run_preserves. intros. by eapply step_steady. Qed.

Lemma settled_fields p (w w' : World S) :
  settled p w -> w_state w' = w_state w -> w_seen w' = w_seen w ->
  w_notified w' = w_notified w -> settled p w'.
Proof. unfold settled. by intros ? -> -> ->. Qed.

Lemma setMode_settled now newMode (w w' : World S) :
  setMode config now newMode w = Normal w' -> settled true w'.
Proof.
  intros Hset.
  destruct (setMode_fields _ _ _ _ _ Hset) as (t & Hc & Hst & _ & Hn & _).
  unfold settled. rewrite Hst, Hn. simpl. split_and!.
  - done.
  - intros Hm. by apply (calculateTheme_manual _ _ _ Hc).
  - intros Hm. by apply (calculateTheme_manual _ _ _ Hc).
  - right. by rewrite last_snoc.
Qed.

Lemma step_settled clock ev p (w w' : World S) :
  steady config w -> settled p w ->
  match ev with
  | VisibilityChanged visible => negb (visible && p)
  | _ => true
  end = true ->
  step config clock ev w = Normal w' ->
  settled (pendingAfter p ev) w'.
Proof.
  intros (Hdoc & Hlisten & _) Hs Hfresh.
  destruct ev as [newMode| | |visible|]; simpl.
  - apply setMode_settled.
  - apply setMode_settled.
  - destruct (w_timer w) as [d0|]; [|by intros [= <-]].
    intros Hout. destruct (onTimeout_fields _ _ _ _ Hout) as (t & d & ->).
    destruct (valEq (mode (w_state w)) (js "auto")) eqn:Hauto; simpl.
    + by apply (settled_fields p (showAutoTheme config t w));
        [apply settled_showAutoTheme|..].
    + by apply (settled_fields p w).
  - rewrite Hlisten. unfold handleVisibilityChange.
    destruct (w_document w) as [doc|]; [|done].
    destruct (visible && valEq (mode (w_seen w)) (js "auto")) eqn:Htest;
      [|by intros [= <-]].
    apply andb_true_iff in Htest as [-> Hauto].
    destruct p; [done|].
    destruct (getThemeFromTimeVal _ _ _) as [t|]; [|done]. simpl.
    intros [= <-]. apply settled_showAutoTheme; [done|].
    destruct Hs as (Hsame & _). by rewrite <- Hsame.
  - intros Hr.
    destruct (afterRender_fields _ _ _ _ Hr)
      as (_ & _ & Hst & Hseen & Hn & _).
    destruct Hs as (_ & Hpin & Hlast).
    unfold settled. rewrite Hst, Hseen, Hn. by split; [|split].
Qed.

Lemma settled_pending p (w : World S) : settled p w -> settled true w.
Proof. intros (_ & ? & ?). by split; [|split]. Qed.

Lemma run_settled events p (w w' : World S) :
  steady config w -> settled p w -> visibilityFresh p events = true ->
  run config events w = Normal w' -> settled true w'.
Proof.
  revert p w. induction events as [|[clock ev] events IH]; intros p w Hw Hs.
  - intros _ [= <-]. by eapply settled_pending.
  - cbn [visibilityFresh run]. intros [Hev Hrest]%andb_true_iff.
    destruct (step config clock ev w) as [w1|] eqn:Hstep; [|done].
    cbn [mbind completion_bind bindC]. intros Hrun.
    apply (IH (pendingAfter p ev) w1); [by eapply step_steady| |done..].
    by eapply step_settled.
Qed.

End RuntimeInvariants.

(** ** The provider in manual mode, on any configuration *)

Section RuntimeManual.
Context {S : Type} `{WebStorage S}.
Variable config : ThemeConfig.

Lemma runEffects_manual clock (w : World S) :
  w_document w <> None -> valEq (mode (w_seen w)) (js "auto") = false ->
  runEffects config clock w = Normal (withListener true (withTimer None w)).
Proof.
  intros Hdoc Hmanual. unfold runEffects, scheduleNextCheck.
  rewrite Hmanual. cbn [negb mbind completion_bind bindC].
  unfold addEventListener. cbn [withTimer w_document].
  by destruct (w_document w).
Qed.

Lemma afterRender_manual clock (w : World S) :
  w_document w <> None -> valEq (mode (w_state w)) (js "auto") = false ->
  exists w', afterRender config clock w = Normal w'
             /\ w_state w' = w_state w /\ w_timer w' = None.
Proof.
  intros Hdoc Hmanual. unfold afterRender, cleanup, removeEventListener.
  cbn [withTimer w_document].
  destruct (w_document w) as [doc|] eqn:Hd; [|done].
  cbn [mbind completion_bind bindC].
  rewrite runEffects_manual; [by eexists| |done].
  simpl. by rewrite Hd.
Qed.

Lemma afterRender_no_document clock (w : World S) :
  w_document w = None -> afterRender config clock w = Throw ReferenceError.
Proof.
  intros Hdoc. unfold afterRender, cleanup, removeEventListener.
  cbn [withTimer w_document]. by rewrite Hdoc.
Qed.

(** [setMode] with a manual mode, on any configuration. *)
Lemma setMode_manual now (t : Theme) (w : World S) :
  exists w1,
    setMode config now (themeName t) w = Normal w1
    /\ w_state w1 = {| mode := JsStr (themeName t); theme := t |}
    /\ w_document w1 = applyThemeToDom t (applyTo config) (w_document w)
    /\ w_notified w1 = w_notified w ++ [(t, JsStr (themeName t))]
    /\ w_timer w1 = w_timer w /\ w_seen w1 = w_seen w
    /\ w_listening w1 = w_listening w.
Proof.
  unfold setMode.
  destruct (storeMode_total (themeName t) (toDOMString (storageKey config))
              (w_host w)) as (b & h' & Hstore).
  destruct t; simpl in *; rewrite Hstore; by eexists.
Qed.

End RuntimeManual.

Section RuntimeExtras.
Local Open Scope Z_scope.
Context {S : Type} `{WebStorage S}.

Lemma run_total (config : ThemeConfig) (ls ds : jsstring) (L D : Z)
    (events : list (Clock * Event)) (w : World S) :
  lightStart config = JsStr ls -> darkStart config = JsStr ds ->
  timeToMinutes ls = Normal L -> timeToMinutes ds = Normal D ->
  steady config w ->
  exists w', run config events w = Normal w'.
Proof.
  intros Hl Hd HL HD. revert w.
  induction events as [|[clock ev] events IH]; intros w Hw; simpl; [eauto|].
  destruct (step_total config ls ds L D Hl Hd HL HD clock ev w) as [w1 Hs];
    [apply Hw|].
  rewrite Hs. simpl. apply IH. by eapply step_steady.
Qed.

Lemma provider_reaches_steady (config : option PartialThemeConfig)
    (clock : Clock) (h : Host S) (document : Document)
    (events : list (Clock * Event)) :
  exists w0 w,
    mount (mergedConfig config) clock h (Some document) = Normal w0
    /\ run (mergedConfig config) events w0 = Normal w
    /\ steady (mergedConfig config) w0 /\ settled false w0
    /\ steady (mergedConfig config) w.
Proof.
  destruct (mergedConfig_boundaries config)
    as (ls & ds & L & D & Hl & Hd & HL & HD).
  destruct (mount_total _ ls ds L D Hl Hd HL HD clock h document) as [w0 Hw0].
  destruct (mount_steady _ _ _ _ _ Hw0) as [Hsteady Hsettled].
  destruct (run_total _ ls ds L D events w0 Hl Hd HL HD Hsteady) as [w Hw].
  exists w0, w. split_and!; [done..|]. by eapply run_steady.
Qed.

(** X14: in a host with a document the provider never throws.  Whatever
    configuration the caller passes, whatever the store and the document
    are, and whatever sequence of [setMode] calls, toggles, timeouts,
    visibility changes and renders follows at whatever clock readings,
    mounting and every step complete normally.  Where effects run and
    there is no document, mounting throws a [ReferenceError]: the
    [addEventListener] of the second effect is not guarded. *)
Theorem provider_never_throws (config : option PartialThemeConfig)
    (clock : Clock) (h : Host S) (document : Document)
    (events : list (Clock * Event)) :
  (exists w0 w,
     mount (mergedConfig config) clock h (Some document) = Normal w0
     /\ run (mergedConfig config) events w0 = Normal w)
  /\ mount (mergedConfig config) clock h None = Throw ReferenceError.
Proof.
  split.
  - destruct (provider_reaches_steady config clock h document events)
      as (w0 & w & ? & ? & _). eauto.
  - destruct (mergedConfig_boundaries config)
      as (ls & ds & L & D & Hl & Hd & HL & HD).
    by apply (mount_no_document _ ls ds L D).
Qed.

(** X15: a manual mode fixes the theme, as long as no page becomes
    visible between a call of [setMode] and the render that follows it.
    After mounting and any such sequence of events, when the mode of the
    state is "light" the theme is light and when it is "dark" the theme
    is dark: no timeout and no visibility change handled by an up-to-date
    handler moves the theme away from a manual choice. *)
Theorem manual_mode_fixes_theme (config : option PartialThemeConfig)
    (clock : Clock) (h : Host S) (document : Document)
    (events : list (Clock * Event)) :
  visibilityFresh false events = true ->
  exists w0 w,
    mount (mergedConfig config) clock h (Some document) = Normal w0
    /\ run (mergedConfig config) events w0 = Normal w
    /\ (mode (w_state w) = JsStr (js "light") -> theme (w_state w) = light)
    /\ (mode (w_state w) = JsStr (js "dark") -> theme (w_state w) = dark).
Proof.
  intros Hfresh.
  destruct (provider_reaches_steady config clock h document events)
    as (w0 & w & Hmount & Hrun & Hsteady & Hsettled & _).
  destruct (run_settled _ _ _ _ _ Hsteady Hsettled Hfresh Hrun)
    as (_ & [? ?] & _).
  by exists w0, w.
Qed.



(** X18: a timeout is pending exactly when the last render was in
    automatic mode.  After mounting, and after every later render, no
    timeout is pending when the mode of the state is not "auto" and one
    is pending when it is; after any sequence of events the same holds of
    the mode the last render saw, which is the mode of the state unless
    a [setMode] is waiting for its render. *)
Theorem timeout_pending_iff_auto (config : option PartialThemeConfig)
    (clock clock' : Clock) (h : Host S) (document : Document)
    (events : list (Clock * Event)) :
  exists w0 w w',
    mount (mergedConfig config) clock h (Some document) = Normal w0
    /\ run (mergedConfig config) events w0 = Normal w
    /\ step (mergedConfig config) clock' Rendered w = Normal w'
    /\ (w_timer w0 = None <-> mode (w_state w0) <> JsStr (js "auto"))
    /\ (w_timer w = None <-> mode (w_seen w) <> JsStr (js "auto"))
    /\ (w_timer w' = None <-> mode (w_state w') <> JsStr (js "auto")).
Proof.
  destruct (provider_reaches_steady config clock h document
              (events ++ [(clock', Rendered)]))
    as (w0 & w' & Hmount & Hrun & Hsteady0 & Hsettled0 & Hsteady').
  destruct (provider_reaches_steady config clock h document events)
    as (w0' & w & Hmount' & Hrun0 & _ & _ & Hsteady).
  rewrite Hmount in Hmount'. injection Hmount' as <-.
  assert (Hstep : step (mergedConfig config) clock' Rendered w = Normal w').
  { clear -Hrun Hrun0. revert w0 Hrun Hrun0.
    induction events as [|[c ev] events IH]; intros w0; simpl.
    - intros Hr [= <-]. by destruct (afterRender _ _ _).
    - destruct (step _ c ev w0) as [w1|]; [|done]. simpl. apply IH. }
  assert (Hiff : forall v, valEq v (js "auto") = false <-> v <> JsStr (js "auto")).
  { intros v. rewrite <- valEq_true. by destruct (valEq _ _). }
  destruct Hsteady0 as (_ & _ & _ & Ht0).
  destruct Hsettled0 as (Hseen0 & _). specialize (Hseen0 eq_refl).
  destruct Hsteady as (_ & _ & _ & Ht).
  destruct Hsteady' as (_ & _ & _ & Ht').
  destruct (afterRender_fields _ _ _ _ Hstep) as (_ & _ & Hst' & Hseen' & _).
  exists w0, w, w'. split_and!; try done.
  - by rewrite Ht0, Hseen0.
  - by rewrite Ht.
  - by rewrite Ht', Hseen', Hst'.
Qed.

(** X19: the 24-hour cap does not apply while the clock runs normally.
    On the merged configuration, when the first clock reading is within
    the day and the second one shows the same minute or the minute after
    it, [scheduleNextCheck] in automatic mode arms the timeout with
    exactly the delay [getMsUntilNextBoundary] computes, a whole number
    of minutes that is at most 1440, and at most 1439 when both readings
    show the same minute. *)
Theorem timeout_delay_is_uncapped (config : option PartialThemeConfig)
    (now now' : Date) (w : World S) :
  0 <= getCurrentMinutes now < 1440 ->
  getCurrentMinutes now' = getCurrentMinutes now
  \/ getCurrentMinutes now' = (getCurrentMinutes now + 1) mod 1440 ->
  exists k,
    0 <= k <= 1440
    /\ (getCurrentMinutes now' = getCurrentMinutes now -> k <= 1439)
    /\ getMsUntilNextBoundaryVal now now' (lightStart (mergedConfig config))
         (darkStart (mergedConfig config)) = Normal (k * 60000)
    /\ scheduleNextCheck (mergedConfig config) now now' (JsStr (js "auto")) w
       = Normal (withTimer (Some (k * 60000)) w).
Proof.
  intros HC Hnear.
  assert (HC' : 0 <= getCurrentMinutes now' < 1440).
  { destruct Hnear as [-> | ->]; [done|]. by apply Z.mod_pos_bound. }
  destruct (mergedConfig_boundaries config)
    as (ls & ds & L & D & Hl & Hd & HL & HD).
  destruct (getMsUntilNextBoundary_two_readings now now' ls ds L D
              HL HD HC HC')
    as (nb & k & _ & Hk & _ & Hr & Hday & Hsame).
  specialize (Hday Hnear).
  assert (Hmin : Z.min (k * 60000) (24 * 60 * 60 * 1000) = k * 60000)
    by (apply Z.min_l; lia).
  exists k. split; [lia|]. split; [intros Hc; by apply Hsame|].
  unfold scheduleNextCheck, getMsUntilNextBoundaryVal. rewrite Hl, Hd, Hk.
  split; [done|].
  change (negb (valEq (JsStr (js "auto")) (js "auto"))) with false.
  cbn [mbind completion_bind bindC]. by rewrite Hmin.
Qed.

(** X20: a toggle leaves automatic mode.  [toggleTheme] sets the
    opposite of the theme of the last render and makes it the manual
    mode, whatever the mode was and whatever the configuration and the
    store are; after the render that follows no timeout is pending.
    (That render completes where there is a document; without one its
    cleanup throws.) *)
Theorem toggleTheme_sets_manual_mode (config : ThemeConfig)
    (clock clock' : Clock) (w : World S) :
  exists w1,
    step config clock ToggleCalled w = Normal w1
    /\ theme (w_state w1) = flipTheme (theme (w_seen w))
    /\ mode (w_state w1) = JsStr (themeName (flipTheme (theme (w_seen w))))
    /\ (w_document w <> None ->
        exists w', step config clock' Rendered w1 = Normal w'
                   /\ w_state w' = w_state w1 /\ w_timer w' = None)
    /\ (w_document w = None ->
        step config clock' Rendered w1 = Throw ReferenceError).
Proof.
  destruct (setMode_manual config (clock 0%nat) (flipTheme (theme (w_seen w))) w)
    as (w1 & Hset & Hst & Hd & _).
  exists w1. split_and!.
  - simpl. unfold toggleTheme. rewrite <- Hset. by destruct (theme (w_seen w)).
  - by rewrite Hst.
  - by rewrite Hst.
  - intros Hdoc. simpl. apply afterRender_manual.
    + rewrite Hd. by apply applyThemeToDom_some.
    + rewrite Hst. simpl. by destruct (flipTheme _).
  - intros Hdoc. simpl. apply afterRender_no_document.
    by rewrite Hd, Hdoc.
Qed.


End RuntimeExtras.

Section RuntimeExtrasWitnesses.
Local Open Scope Z_scope.

Lemma manual_mode_fixes_theme_witness :
  exists w0 w,
    mount (mergedConfig None) (stopped (clockAt 600)) (browser [] 100 false)
      (Some sampleDocument) = Normal w0
    /\ run (mergedConfig None)
         [(stopped (clockAt 1380), SetModeCalled (js "light"));
          (stopped (clockAt 1380), Rendered);
          (stopped (clockAt 1380), VisibilityChanged true);
          (stopped (clockAt 1380), TimeoutFired)] w0 = Normal w
    /\ (mode (w_state w) = JsStr (js "light") -> theme (w_state w) = light)
    /\ (mode (w_state w) = JsStr (js "dark") -> theme (w_state w) = dark).
Proof.
  apply (manual_mode_fixes_theme None (stopped (clockAt 600))
           (browser [] 100 false) sampleDocument
           [(stopped (clockAt 1380), SetModeCalled (js "light"));
            (stopped (clockAt 1380), Rendered);
            (stopped (clockAt 1380), VisibilityChanged true);
            (stopped (clockAt 1380), TimeoutFired)]).
  reflexivity.
Defined.


Lemma timeout_delay_is_uncapped_witness :
  exists k,
    0 <= k <= 1440
    /\ (getCurrentMinutes (clockAt 501) = getCurrentMinutes (clockAt 500) ->
        k <= 1439)
    /\ getMsUntilNextBoundaryVal (clockAt 500) (clockAt 501)
         (lightStart (mergedConfig None)) (darkStart (mergedConfig None))
       = Normal (k * 60000)
    /\ scheduleNextCheck (mergedConfig None) (clockAt 500) (clockAt 501)
         (JsStr (js "auto")) sampleWorld
       = Normal (withTimer (Some (k * 60000)) sampleWorld).
Proof.
  apply (timeout_delay_is_uncapped None (clockAt 500) (clockAt 501)
           sampleWorld).
  - rewrite getCurrentMinutes_clockAt. lia.
  - right. reflexivity.
Defined.

(** The cap applies when the clock is set forward between the two
    readings: read at 00:00 and then at 22:00, the delay computed for
    07:00 / 22:00 is 31 hours and the timeout is armed for 24. *)
Example cap_applies_after_clock_change :
  getMsUntilNextBoundaryVal (clockAt 0) (clockAt 1320)
    (lightStart (mergedConfig None)) (darkStart (mergedConfig None))
  = Normal (1860 * 60000)
  /\ w_timer (resultOr sampleWorld
                (scheduleNextCheck (mergedConfig None) (clockAt 0)
                   (clockAt 1320) (JsStr (js "auto")) sampleWorld))
     = Some (1440 * 60000).
Proof. by vm_compute. Qed.


End RuntimeExtrasWitnesses.

(** ** Persistence across a reload *)

Section ReloadExtras.
Local Open Scope Z_scope.
Context {S : Type} `{WebStorage S}.
Variable view : S -> gmap jsstring jsstring.
Hypothesis contract : Contract view.
Variable config : ThemeConfig.

Lemma setMode_host now newMode (w w1 : World S) :
  setMode config now newMode w = Normal w1 ->
  w_host w1
  = snd ((if bool_decide (newMode = js "auto")
          then clearStoredMode (toDOMString (storageKey config))
          else storeMode newMode (toDOMString (storageKey config)))
           (w_host w)).
Proof.
  unfold setMode.
  destruct (calculateTheme (JsStr newMode) config now) as [t|]; [|done].
  simpl.
  match goal with |- context [?persist (w_host w)] =>
    destruct (persist (w_host w)) as [[b|e] h'] end; [|done].
  by intros [= <-].
Qed.

Lemma mount_with_stored_mode clock h h' document m :
  getStoredMode (toDOMString (storageKey config)) h = (Normal (Some m), h') ->
  m = js "light" \/ m = js "dark" ->
  exists w,
    mount config clock h (Some document) = Normal w
    /\ mode (w_state w) = JsStr m
    /\ themeName (theme (w_state w)) = m
    /\ w_timer w = None.
Proof.
  intros Hget Hm. unfold mount, initialState, storedModeOrDefault.
  rewrite (bindM_normal _ _ _ _ _ Hget). unfold retM.
  assert (Hcalc : exists t,
    calculateTheme (JsStr m) config (clock 0%nat) = Normal t
    /\ themeName t = m).
  { destruct Hm as [-> | ->]; [by exists light | by exists dark]. }
  destruct Hcalc as (t & -> & Ht). cbn [mbind completion_bind bindC].
  rewrite runEffects_manual.
  - by eexists.
  - cbn [w_document]. by apply applyThemeToDom_some.
  - cbn [w_seen mode]. by destruct Hm as [-> | ->].
Qed.

Lemma mount_without_stored_mode clock h h' document w :
  getStoredMode (toDOMString (storageKey config)) h = (Normal None, h') ->
  mount config clock h document = Normal w ->
  mode (w_state w) = defaultMode config.
Proof.
  intros Hget. unfold mount, initialState, storedModeOrDefault.
  rewrite (bindM_normal _ _ _ _ _ Hget). unfold retM.
  destruct (calculateTheme _ config _) as [t|]; [|done]. simpl.
  intros Hs. apply runEffects_fields in Hs.
  destruct Hs as (_ & _ & -> & _). done.
Qed.

End ReloadExtras.

Section ReloadTheorems.
Local Open Scope Z_scope.
Context {S : Type} `{WebStorage S}.

(** X21: a manual choice survives a reload.  When [setMode] is called
    with "light" or "dark", the write to the store goes through, and the
    store can be read when the provider is mounted again on a page with
    a document, the new provider starts in that manual mode with that
    theme and arms no timeout, at whatever time of day it is mounted. *)
Theorem manual_mode_survives_reload (view : S -> gmap jsstring jsstring)
    (config : ThemeConfig) (now : Date) (later : Clock) (newMode : jsstring)
    (w w1 : World S) (document : Document)
    (h2 h3 : Host S) (r : option jsstring) :
  Contract view ->
  toDOMString (storageKey config) <> testKey ->
  newMode = js "light" \/ newMode = js "dark" ->
  setMode config now newMode w = Normal w1 ->
  fst (storeMode newMode (toDOMString (storageKey config)) (w_host w))
    = Normal true ->
  isStorageAvailable (w_host w1) = (Normal true, h2) ->
  localStorage_getItem (toDOMString (storageKey config)) h2 = (Normal r, h3) ->
  exists w2,
    mount config later (w_host w1) (Some document) = Normal w2
    /\ mode (w_state w2) = JsStr newMode
    /\ themeName (theme (w_state w2)) = newMode
    /\ w_timer w2 = None.
Proof.
  intros Hc Hkey Hm Hset Hstored Hp Hget.
  pose proof (setMode_host config now newMode w w1 Hset) as Hhost.
  assert (Hna : bool_decide (newMode = js "auto") = false)
    by (destruct Hm as [-> | ->]; by vm_compute).
  rewrite Hna in Hhost. cbv beta iota in Hhost.
  destruct (storeMode newMode (toDOMString (storageKey config)) (w_host w))
    as [b h1] eqn:Hstore.
  simpl in Hstored, Hhost. subst b. rewrite Hhost in *.
  apply (mount_with_stored_mode config later h1 h3); [|done].
  rewrite (getStoredMode_reads view Hc _ h1 h2 r h3 Hp Hget Hkey).
  rewrite (storeMode_contents view Hc _ _ _ _ Hstore), lookup_insert_eq.
  destruct (decide (isMode newMode)) as [|Hno]; [done|].
  exfalso. apply Hno. unfold isMode. tauto.
Qed.

(** X22: [setAuto] forgets the manual choice.  When [setMode] is called
    with "auto" and the removal from the store goes through, a provider
    mounted afterwards starts in the configured [defaultMode], whatever
    was stored before and whatever the store does later. *)
Theorem auto_mode_restores_default (view : S -> gmap jsstring jsstring)
    (config : ThemeConfig) (now : Date) (later : Clock)
    (w w1 w2 : World S) (document : option Document) :
  Contract view ->
  setMode config now (js "auto") w = Normal w1 ->
  fst (clearStoredMode (toDOMString (storageKey config)) (w_host w))
    = Normal true ->
  mount config later (w_host w1) document = Normal w2 ->
  mode (w_state w2) = defaultMode config.
Proof.
  intros Hc Hset Hcleared Hmount.
  pose proof (setMode_host config now (js "auto") w w1 Hset) as Hhost.
  change (bool_decide (js "auto" = js "auto")) with true in Hhost.
  cbv beta iota in Hhost.
  destruct (clearStoredMode (toDOMString (storageKey config)) (w_host w))
    as [b h1] eqn:Hclear.
  simpl in Hcleared, Hhost. subst b. rewrite Hhost in *.
  destruct (clearStoredMode_then_getStoredMode_aux view Hc _ _ _ Hclear)
    as (h2 & Hget).
  by apply (mount_without_stored_mode config later h1 h2 document).
Qed.

(** X23: equal boundaries make the timeout spin.  With [lightStart] and
    [darkStart] at the same minute, in automatic mode, a timeout that
    fires during that minute changes nothing and is armed again with a
    delay of 0 ms, any number of times in a row. *)
Theorem equal_boundaries_rearm_at_once (config : ThemeConfig)
    (ls ds : jsstring) (L : Z) (clock : Clock) (w : World S) (n : nat) :
  lightStart config = JsStr ls -> darkStart config = JsStr ds ->
  timeToMinutes ls = Normal L -> timeToMinutes ds = Normal L ->
  (forall i, getCurrentMinutes (clock i) = L) ->
  mode (w_state w) = JsStr (js "auto") -> theme (w_state w) = light ->
  w_timer w <> None ->
  run config (replicate (Datatypes.S n) (clock, TimeoutFired)) w
  = Normal (withTimer (Some 0) w).
Proof.
  intros Hl Hd HL HD HC.
  assert (Hstep : forall w : World S,
    mode (w_state w) = JsStr (js "auto") -> theme (w_state w) = light ->
    w_timer w <> None ->
    step config clock TimeoutFired w = Normal (withTimer (Some 0) w)).
  { clear w. intros w Hmode Htheme Htimer.
    assert (Htime : getThemeFromTimeVal (clock 0%nat) (lightStart config)
                      (darkStart config) = Normal light).
    { unfold getThemeFromTimeVal. rewrite Hl, Hd.
      rewrite (getThemeFromTime_parsed _ _ _ _ _ HL HD). cbv zeta.
      by rewrite HC, Z.ltb_irrefl, Z.geb_leb, Z.leb_refl. }
    assert (Hms : getMsUntilNextBoundaryVal (clock 1%nat) (clock 2%nat)
                    (lightStart config) (darkStart config) = Normal 0).
    { unfold getMsUntilNextBoundaryVal. rewrite Hl, Hd.
      pose proof (getNextBoundary_parsed _ _ _ _ HL HD (clock 2%nat)) as Hnb.
      cbv zeta in Hnb.
      rewrite HC, Z.ltb_irrefl, Z.geb_leb, Z.leb_refl in Hnb. simpl in Hnb.
      rewrite (getMsUntilNextBoundary_parsed _ _ _ _ _ Hnb), HC.
      by rewrite Z.sub_diag. }
    assert (Harm : scheduleNextCheck config (clock 1%nat) (clock 2%nat)
                     (JsStr (js "auto")) w
                   = Normal (withTimer (Some 0) w)).
    { unfold scheduleNextCheck.
      change (negb (valEq (JsStr (js "auto")) (js "auto"))) with false.
      cbv iota. by rewrite Hms. }
    unfold step. destruct (w_timer w) as [d|] eqn:Hd0; [|done].
    unfold onTimeout. rewrite Htime. cbn [mbind completion_bind bindC].
    rewrite Hmode.
    change (negb (valEq (JsStr (js "auto")) (js "auto"))) with false.
    cbv iota. unfold showAutoTheme. rewrite Htheme. cbn [theme_eqb].
    exact Harm. }
  revert w. induction n as [|n IH]; intros w Hmode Htheme Htimer.
  - cbn [replicate run]. rewrite Hstep by done. done.
  - change (replicate (Datatypes.S (Datatypes.S n)) (clock, TimeoutFired))
      with ((clock, TimeoutFired)
            :: replicate (Datatypes.S n) (clock, TimeoutFired)).
    cbn [run]. rewrite Hstep by done.
    cbn [mbind completion_bind bindC].
    rewrite IH by done. done.
Qed.

End ReloadTheorems.

Section ReloadWitnesses.
Local Open Scope Z_scope.

Lemma manual_mode_survives_reload_witness :
  exists w2,
    mount (mergedConfig None) (stopped (clockAt 600)) (w_host sampleDarkWorld)
      (Some sampleDocument) = Normal w2
    /\ mode (w_state w2) = JsStr (js "dark")
    /\ themeName (theme (w_state w2)) = js "dark"
    /\ w_timer w2 = None.
Proof.
  apply (manual_mode_survives_reload items (mergedConfig None)
           (clockAt 500) (stopped (clockAt 600)) (js "dark")
           sampleWorld sampleDarkWorld sampleDocument
           (browser [(js "auto-theme-mode", js "dark")] 100 false)
           (browser [(js "auto-theme-mode", js "dark")] 100 false)
           (Some (js "dark"))).
  - exact browser_storage_contract.
  - discriminate.
  - right. reflexivity.
  - by vm_compute.
  - by vm_compute.
  - by vm_compute.
  - by vm_compute.
Defined.

Lemma auto_mode_restores_default_witness :
  mode (w_state sampleRemounted) = defaultMode (mergedConfig None).
Proof.
  apply (auto_mode_restores_default items (mergedConfig None)
           (clockAt 500) (stopped (clockAt 600))
           sampleDarkWorld sampleAutoWorld sampleRemounted
           (Some sampleDocument)).
  - exact browser_storage_contract.
  - by vm_compute.
  - by vm_compute.
  - by vm_compute.
Defined.

Lemma equal_boundaries_rearm_at_once_witness :
  run (mergedConfig (Some equalBoundariesConfig))
    (replicate 3 (stopped (clockAt 540), TimeoutFired)) sampleWorld
  = Normal (withTimer (Some 0) sampleWorld).
Proof.
  apply (equal_boundaries_rearm_at_once
           (mergedConfig (Some equalBoundariesConfig))
           (js "09:00") (js "09:00") 540 (stopped (clockAt 540))
           sampleWorld 2);
    try reflexivity.
  discriminate.
Defined.

End ReloadWitnesses.
